(** * uioctl: a shallow embedding of [uioctl.c]

    The program is one C file.  [main] parses its options with getopt,
    then either runs the interrupt monitor ([monitor], which never
    returns) or opens and maps the device file and reads or writes
    32-bit words through the mapping.

    The embedding is a set of pure functions over an explicit
    environment (what the operating system answers to each call) that
    return the trace of the calls the program made together with the
    way the process ended. *)

From Stdlib Require Import ZArith Lia Bool Ascii String.
From stdpp Require Import list strings.

Local Open Scope Z_scope.

(** ** C integers *)

Module CInt.

(** [int] is 32 bits wide on every ABI Linux UIO runs on.  Conversion
    to [int] keeps the low 32 bits; arithmetic that leaves the range
    is modelled as wrapping, which is what the compilers in use do. *)
Definition to_uint (z : Z) : Z := z mod 4294967296.

Definition to_int (z : Z) : Z :=
  let u := to_uint z in
  if u <? 2147483648 then u else u - 4294967296.

Definition add (a b : Z) : Z := to_int (a + b).
Definition mul (a b : Z) : Z := to_int (a * b).

End CInt.

Definition EXIT_SUCCESS : Z := 0.
Definition EXIT_FAILURE : Z := 1.
Definition DEFAULT_WIDTH : Z := 4.

Inductive mode_type := MODE_READ | MODE_WRITE | MODE_LIST | MODE_MONITOR.

(** ** The platform

    [char buf[4]] in [monitor] is plain [char], whose signedness the
    C standard leaves to the ABI (signed on x86, unsigned on ARM
    Linux). *)

Record platform := { char_signed : bool }.

Definition x86 : platform := {| char_signed := true |}.
Definition arm : platform := {| char_signed := false |}.

(** The value of a [char] holding the raw byte [b] (0..255), after the
    integer promotion that [buf[i] * k] applies. *)
Definition char_value (p : platform) (b : Z) : Z :=
  if char_signed p && (128 <=? b) then b - 256 else b.

(** ** Hexadecimal output of [printf]'s [%08x] *)

Module Hex.

Definition digit (d : Z) : ascii :=
  if d <? 10 then ascii_of_nat (Z.to_nat (48 + d))
  else ascii_of_nat (Z.to_nat (87 + d)).

(** The [n] least significant hexadecimal digits of [v], most
    significant first. *)
Fixpoint digits (n : nat) (v : Z) : list ascii :=
  match n with
  | O => []
  | S k => digits k (v / 16) ++ [digit (v mod 16)]
  end.

(** [%08x] applied to an [int] argument: the argument is read as
    [unsigned]; at most 8 digits are ever needed, so the zero padded
    field is always exactly 8 wide. *)
Definition fmt_08x (v : Z) : string :=
  string_of_list_ascii (digits 8 (CInt.to_uint v)).

(** Reading hexadecimal back, for stating what the digits mean. *)
Definition digit_value (c : ascii) : option Z :=
  let n := Z.of_nat (nat_of_ascii c) in
  if (48 <=? n) && (n <=? 57) then Some (n - 48)
  else if (97 <=? n) && (n <=? 102) then Some (n - 87)
  else None.

Fixpoint parse_from (acc : Z) (l : list ascii) : option Z :=
  match l with
  | [] => Some acc
  | c :: rest =>
      match digit_value c with
      | Some d => parse_from (16 * acc + d) rest
      | None => None
      end
  end.

Definition parse (s : string) : option Z :=
  parse_from 0 (list_ascii_of_string s).

End Hex.

Definition TAB : string := String (ascii_of_nat 9) EmptyString.
Definition NL : string := String (ascii_of_nat 10) EmptyString.

(** ** What a run does: events and outcomes *)

(** One constructor per [printf] to standard output, applied to the
    arguments of the call. *)
Inductive output :=
| OutUsage
| OutWaiting (fpath : string)
| OutInterrupt (time millitm counter : Z)
| OutWord (line : string).

Inductive event :=
| EvStdout (o : output)
| EvStderr (msg : string)
| EvPerror
| EvOpen (fpath : string) (o_sync : bool) (ret : Z)
| EvPwrite (fd : Z) (data : list Z) (nbytes offset ret : Z)
| EvPread (fd : Z) (nbytes offset ret : Z)
| EvFtime
| EvMmap (len fd offset : Z) (mapped : bool)
| EvLoad (addr : Z)
| EvStore (addr value : Z)
| EvMunmap (len : Z)
| EvClose (fd : Z).

(** How the process ends.  [Faulted]: a load or store through [ptr]
    touched an address at which the process has nothing mapped, which
    the program leaves to the operating system (SIGSEGV).
    [Blocked]: the process sits inside the monitor's blocking [pread],
    which has not returned: the device has delivered nothing more. *)
Inductive outcome :=
| Exited (status : Z)
| Faulted
| Blocked.

Record result := {
  r_trace : list event;
  r_outcome : outcome;
  r_mem : option (list Z)
}.

(** ** The environment

    [open_ret] is what [open] returns.  [mmap_ret] is [None] when
    [mmap] returns [MAP_FAILED] and otherwise the bytes of the pages
    the kernel mapped (whole pages, so possibly more than the length
    asked for); the device is taken to behave as memory.  [replies]
    lists, per iteration of the monitor loop, what the device file and
    the clock answer; once they are used up the device still accepts
    the acknowledge write and then delivers no interrupt.

    The program dereferences [ptr + addr] as it stands, so an address
    outside the mapped bytes reaches whatever the process has there:
    [beyond o] is the byte at [ptr + o] for such an offset, or [None]
    where nothing is mapped.  When [mmap] failed [ptr] is [MAP_FAILED]
    and every offset is of this kind. *)

Record buffer := { b0 : Z; b1 : Z; b2 : Z; b3 : Z }.

Record interrupt_reply := {
  wr_ret : Z;
  rd_ret : Z;
  rd_buf : buffer;
  tp_time : Z;
  tp_millitm : Z
}.

Record environment := {
  open_ret : Z;
  mmap_ret : option (list Z);
  replies : list interrupt_reply;
  beyond : Z -> option Z
}.

Definition nothing_beyond : Z -> option Z := fun _ => None.

(** ** [usage] and [list_devices] *)

Definition usage (exit_status : Z) : list event * Z :=
  (if exit_status =? EXIT_SUCCESS then [EvStdout OutUsage]
   else [EvStderr "Usage"], exit_status).

Definition list_devices : list event * Z :=
  ([EvStderr "listing not yet implemented"], EXIT_FAILURE).

(** ** [monitor] *)

Definition startval : list Z := [0; 0; 0; 1].

(** The expression printed with [%d]:
    [buf[3] * 16777216 + buf[2] * 65536 + buf[1] * 256 + buf[0]]
    over [char buf[4]], evaluated in [int]. *)
Definition decode_counter (p : platform) (buf : buffer) : Z :=
  CInt.add
    (CInt.add
       (CInt.add (CInt.mul (char_value p (b3 buf)) 16777216)
                 (CInt.mul (char_value p (b2 buf)) 65536))
       (CInt.mul (char_value p (b1 buf)) 256))
    (char_value p (b0 buf)).

(** The decoding in the words of the specification: little-endian
    unsigned 32 bits. *)
Definition le_u32 (buf : buffer) : Z :=
  b3 buf * 16777216 + b2 buf * 65536 + b1 buf * 256 + b0 buf.

Definition is_byte (b : Z) : Prop := 0 <= b <= 255.

Definition byte_buffer (buf : buffer) : Prop :=
  is_byte (b0 buf) /\ is_byte (b1 buf) /\ is_byte (b2 buf) /\ is_byte (b3 buf).

(** One pass through the body of the [do ... while] loop.  The second
    component is [Some status] when the body called [exit]. *)
Definition monitor_iteration (p : platform) (fd : Z) (r : interrupt_reply)
  : list event * option Z :=
  let w := EvPwrite fd startval 4 0 (wr_ret r) in
  if negb (wr_ret r =? 4) then
    ([w; EvPerror; EvStderr "Problem clearing device file"], Some EXIT_FAILURE)
  else
    let rd := EvPread fd 4 0 (rd_ret r) in
    if negb (rd_ret r =? 4) then
      ([w; rd; EvFtime; EvPerror; EvStderr "Problem reading from device file"],
       Some EXIT_FAILURE)
    else
      ([w; rd; EvFtime;
        EvStdout (OutInterrupt (tp_time r) (tp_millitm r)
                               (decode_counter p (rd_buf r)))],
       None).

Fixpoint monitor_loop (p : platform) (fd : Z) (forever : bool)
    (rs : list interrupt_reply) : list event * outcome :=
  match rs with
  | [] => ([EvPwrite fd startval 4 0 4], Blocked)
  | r :: rest =>
      match monitor_iteration p fd r with
      | (evs, Some status) => (evs, Exited status)
      | (evs, None) =>
          if forever then
            let '(evs', o) := monitor_loop p fd forever rest in
            (evs ++ evs', o)
          else (evs ++ [EvClose fd], Exited EXIT_SUCCESS)
      end
  end.

Definition monitor (p : platform) (env : environment) (fpath : string)
    (forever : bool) : list event * outcome :=
  let fd := open_ret env in
  let pre := [EvStdout (OutWaiting fpath); EvOpen fpath false fd] in
  if fd <? 1 then
    (pre ++ [EvPerror; EvStderr "Couldn't open UIO device file"],
     Exited EXIT_FAILURE)
  else
    let '(evs, o) := monitor_loop p fd forever (replies env) in
    (pre ++ evs, o).

(** ** Access through the mapping

    [ptr + addr] is dereferenced as [unsigned]: four bytes, least
    significant first.  [load32] and [store32] are the access to a word
    that lies inside the mapped bytes; [deref_load] and [deref_store]
    are the access the program makes, byte by byte wherever the
    address leads. *)

Definition load32 (mem : list Z) (addr : Z) : option Z :=
  if addr <? 0 then None
  else
    let a := Z.to_nat addr in
    match mem !! a, mem !! (a + 1)%nat, mem !! (a + 2)%nat, mem !! (a + 3)%nat with
    | Some x0, Some x1, Some x2, Some x3 =>
        Some (x0 + 256 * x1 + 65536 * x2 + 16777216 * x3)
    | _, _, _, _ => None
    end.

Definition store32 (mem : list Z) (addr v : Z) : option (list Z) :=
  if addr <? 0 then None
  else
    let a := Z.to_nat addr in
    if (a + 4 <=? length mem)%nat then
      Some (<[(a + 3)%nat := (v / 16777216) mod 256]>
            (<[(a + 2)%nat := (v / 65536) mod 256]>
             (<[(a + 1)%nat := (v / 256) mod 256]>
              (<[a := v mod 256]> mem))))
    else None.

(** The byte at [ptr + o]: inside the mapped bytes the mapping's,
    elsewhere what the process has there, if anything. *)
Definition byte_at (ptr : option (list Z)) (bey : Z -> option Z) (o : Z)
  : option Z :=
  match ptr with
  | Some mem =>
      if (0 <=? o) && (o <? Z.of_nat (length mem)) then mem !! Z.to_nat o
      else bey o
  | None => bey o
  end.

Definition deref_load (ptr : option (list Z)) (bey : Z -> option Z) (addr : Z)
  : option Z :=
  match byte_at ptr bey addr, byte_at ptr bey (addr + 1),
        byte_at ptr bey (addr + 2), byte_at ptr bey (addr + 3) with
  | Some x0, Some x1, Some x2, Some x3 =>
      Some (x0 + 256 * x1 + 65536 * x2 + 16777216 * x3)
  | _, _, _, _ => None
  end.

(** Writing one byte at offset [o]: it lands in the mapping when [o]
    is inside it; a byte written elsewhere is not seen again by the
    run. *)
Definition write_byte (o b : Z) (mem : list Z) : list Z :=
  if 0 <=? o then <[Z.to_nat o := b]> mem else mem.

(** [None]: the store faulted.  [Some m]: it went through and [m] is
    the mapping afterwards. *)
Definition deref_store (ptr : option (list Z)) (bey : Z -> option Z) (addr v : Z)
  : option (option (list Z)) :=
  match byte_at ptr bey addr, byte_at ptr bey (addr + 1),
        byte_at ptr bey (addr + 2), byte_at ptr bey (addr + 3) with
  | Some _, Some _, Some _, Some _ =>
      let u := CInt.to_uint v in
      Some (option_map
              (fun mem =>
                 write_byte (addr + 3) ((u / 16777216) mod 256)
                   (write_byte (addr + 2) ((u / 65536) mod 256)
                      (write_byte (addr + 1) ((u / 256) mod 256)
                         (write_byte addr (u mod 256) mem))))
              ptr)
  | _, _, _, _ => None
  end.

(** The line [printf("0x%08x\t%08x\n", addr, value)] prints. *)
Definition word_line (addr value : Z) : string :=
  ("0x" ++ Hex.fmt_08x addr ++ TAB ++ Hex.fmt_08x value ++ NL)%string.

(** The read branch of [main]:
    [for (; count > 0; count--) { value = *(ptr + addr); printf; addr += width; }].
    [count] is the number of passes left, that is the C [count] when it
    is positive and none otherwise.  The boolean tells whether every
    load went through. *)
Fixpoint read_words (ptr : option (list Z)) (bey : Z -> option Z) (count : nat)
    (addr width : Z) : list event * bool :=
  match count with
  | O => ([], true)
  | S n =>
      match deref_load ptr bey addr with
      | None => ([EvLoad addr], false)
      | Some v =>
          let value := CInt.to_int v in
          let '(evs, ok) := read_words ptr bey n (CInt.add addr width) width in
          (EvLoad addr :: EvStdout (OutWord (word_line addr value)) :: evs, ok)
      end
  end.

(** The write branch of [main]: [*((unsigned * )(ptr + addr)) = value]. *)
Definition write_word (ptr : option (list Z)) (bey : Z -> option Z)
    (addr value : Z) : list event * option (option (list Z)) :=
  ([EvStore addr value], deref_store ptr bey addr value).

(** ** Command line

    [getopt] and [strtoul] belong to the C library.  The option loop is
    modelled over what [getopt] hands out, and a numeric argument over
    what [strtoul (text, NULL, 0)] returns for it together with whether
    it set [errno]. *)

Record number := { n_value : Z; n_errno : bool }.

Inductive option_token :=
| OptH
| OptL
| OptM
| OptX
| OptR (n : number)
| OptN (n : number)
| OptW (n : number)
| OptOther.

Record argument := { a_text : string; a_number : number }.

Record settings := {
  s_mode : mode_type;
  s_region : Z;
  s_count : Z;
  s_width : Z;
  s_forever : bool
}.

Definition initial_settings : settings :=
  {| s_mode := MODE_READ; s_region := 0; s_count := 1;
     s_width := DEFAULT_WIDTH; s_forever := true |}.

(** The [while ((c = getopt (...)) != -1)] loop.  [inr status]: the
    loop called [exit]. *)
Fixpoint getopt_loop (opts : list option_token) (s : settings)
  : list event * (settings + Z) :=
  match opts with
  | [] => ([], inl s)
  | o :: rest =>
      match o with
      | OptH => let '(evs, st) := usage EXIT_SUCCESS in (evs, inr st)
      | OptL => let '(evs, st) := list_devices in (evs, inr st)
      | OptM =>
          getopt_loop rest
            {| s_mode := MODE_MONITOR; s_region := s_region s;
               s_count := s_count s; s_width := s_width s;
               s_forever := s_forever s |}
      | OptX =>
          getopt_loop rest
            {| s_mode := MODE_MONITOR; s_region := s_region s;
               s_count := s_count s; s_width := s_width s;
               s_forever := false |}
      | OptR n =>
          let region := CInt.to_int (n_value n) in
          if n_errno n then ([EvPerror], inr EXIT_FAILURE)
          else if negb (region =? 0) then
            ([EvStderr "region != 0 not yet implemented"], inr EXIT_FAILURE)
          else
            getopt_loop rest
              {| s_mode := s_mode s; s_region := region;
                 s_count := s_count s; s_width := s_width s;
                 s_forever := s_forever s |}
      | OptN n =>
          let count := CInt.to_int (n_value n) in
          if n_errno n then ([EvPerror], inr EXIT_FAILURE)
          else
            getopt_loop rest
              {| s_mode := s_mode s; s_region := s_region s;
                 s_count := count; s_width := s_width s;
                 s_forever := s_forever s |}
      | OptW n =>
          let width := CInt.to_int (n_value n) in
          if n_errno n then ([EvPerror], inr EXIT_FAILURE)
          else if negb (width =? 4) then
            ([EvStderr "width != 4 not yet implemented"], inr EXIT_FAILURE)
          else
            getopt_loop rest
              {| s_mode := s_mode s; s_region := s_region s;
                 s_count := s_count s; s_width := width;
                 s_forever := s_forever s |}
      | OptOther =>
          ([EvStderr "Unexpected argument; try -h"], inr EXIT_FAILURE)
      end
  end.

(** ** [main] after the command line: open, map, access, clean up *)

Definition device_access (env : environment) (mode : mode_type)
    (fpath : string) (count width addr value : Z) : result :=
  let map_size := CInt.mul count width in
  let fd := open_ret env in
  let ev_open := EvOpen fpath true fd in
  if fd <? 1 then
    {| r_trace := [ev_open; EvPerror; EvStderr "Couldn't open UIO device file"];
       r_outcome := Exited EXIT_FAILURE;
       r_mem := mmap_ret env |}
  else
    let ptr := mmap_ret env in
    let ev_mmap := EvMmap map_size fd 0 (bool_decide (is_Some ptr)) in
    let cleanup := [EvMunmap map_size; EvClose fd] in
    match mode with
    | MODE_READ =>
        let '(evs, ok) := read_words ptr (beyond env) (Z.to_nat count) addr width in
        if ok then
          {| r_trace := [ev_open; ev_mmap] ++ evs ++ cleanup;
             r_outcome := Exited EXIT_SUCCESS;
             r_mem := ptr |}
        else
          {| r_trace := [ev_open; ev_mmap] ++ evs;
             r_outcome := Faulted;
             r_mem := ptr |}
    | _ =>
        match write_word ptr (beyond env) addr value with
        | (evs, Some mem') =>
            {| r_trace := [ev_open; ev_mmap] ++ evs ++ cleanup;
               r_outcome := Exited EXIT_SUCCESS;
               r_mem := mem' |}
        | (evs, None) =>
            {| r_trace := [ev_open; ev_mmap] ++ evs;
               r_outcome := Faulted;
               r_mem := ptr |}
        end
    end.

Definition exit_with (evs : list event) (status : Z) (env : environment) : result :=
  {| r_trace := evs; r_outcome := Exited status; r_mem := mmap_ret env |}.

Definition wrong_number : list event :=
  [EvStderr "Wrong number of arguments; try -h"].

(** [main].  [opts] is what [getopt] returns call after call, [args]
    the arguments left from [optind] on.  The option loop only ever
    stores [MODE_MONITOR] into [mode], so the two other modes cannot
    reach the dispatch (lemma [getopt_loop_mode]); they are sent to the
    code below both [if]s as the C text would. *)
Definition main (p : platform) (env : environment)
    (opts : list option_token) (args : list argument) : result :=
  match getopt_loop opts initial_settings with
  | (evs, inr status) => exit_with evs status env
  | (evs, inl s) =>
      match s_mode s with
      | MODE_MONITOR =>
          match args with
          | [a] =>
              let '(evs', o) := monitor p env (a_text a) (s_forever s) in
              {| r_trace := evs ++ evs'; r_outcome := o; r_mem := mmap_ret env |}
          | _ => exit_with (evs ++ wrong_number) EXIT_FAILURE env
          end
      | MODE_READ =>
          match args with
          | [f; a] =>
              let addr := CInt.to_int (n_value (a_number a)) in
              if n_errno (a_number a) then
                exit_with (evs ++ [EvPerror]) EXIT_FAILURE env
              else
                let r := device_access env MODE_READ (a_text f)
                           (s_count s) (s_width s) addr 0 in
                {| r_trace := evs ++ r_trace r; r_outcome := r_outcome r;
                   r_mem := r_mem r |}
          | [f; a; v] =>
              let addr := CInt.to_int (n_value (a_number a)) in
              let value := CInt.to_int (n_value (a_number v)) in
              if n_errno (a_number a) || n_errno (a_number v) then
                exit_with (evs ++ [EvPerror]) EXIT_FAILURE env
              else
                let r := device_access env MODE_WRITE (a_text f)
                           (s_count s) (s_width s) addr value in
                {| r_trace := evs ++ r_trace r; r_outcome := r_outcome r;
                   r_mem := r_mem r |}
          | _ => exit_with (evs ++ wrong_number) EXIT_FAILURE env
          end
      | m =>
          let r := device_access env m "" (s_count s) (s_width s) 0 0 in
          {| r_trace := evs ++ r_trace r; r_outcome := r_outcome r;
             r_mem := r_mem r |}
      end
  end.

(** ** Predicates on traces *)

Definition is_device_io (e : event) : bool :=
  match e with
  | EvPwrite _ _ _ _ _ | EvPread _ _ _ _ => true
  | _ => false
  end.

Definition is_mapping_access (e : event) : bool :=
  match e with
  | EvLoad _ | EvStore _ _ => true
  | _ => false
  end.

Definition is_word_output (e : event) : bool :=
  match e with
  | EvStdout (OutWord _) => true
  | _ => false
  end.

Definition is_interrupt_output (e : event) : bool :=
  match e with
  | EvStdout (OutInterrupt _ _ _) => true
  | _ => false
  end.

(** Any call that touches the device: open, map, read, write, load,
    store. *)
Definition touches_device (e : event) : bool :=
  match e with
  | EvOpen _ _ _ | EvMmap _ _ _ _ | EvPwrite _ _ _ _ _ | EvPread _ _ _ _
  | EvLoad _ | EvStore _ _ | EvMunmap _ | EvClose _ => true
  | _ => false
  end.

Definition is_error_report (e : event) : bool :=
  match e with
  | EvStderr _ | EvPerror => true
  | _ => false
  end.

(** The order the monitor keeps on the device file: complete 4-byte
    writes of the acknowledge token at offset 0, each followed by one
    4-byte read at offset 0; the last write may still be waiting for
    its read. *)
Inductive ack_wait_order (fd : Z) : list event -> Prop :=
| awo_idle : ack_wait_order fd []
| awo_armed ret : ack_wait_order fd [EvPwrite fd [0; 0; 0; 1] 4 0 ret]
| awo_cycle ret rest :
    ack_wait_order fd rest ->
    ack_wait_order fd
      (EvPwrite fd [0; 0; 0; 1] 4 0 4 :: EvPread fd 4 0 ret :: rest).

(** The calls a run of the monitor makes on the device file, read
    off the replies: each pass makes the acknowledge write and, when
    that write returned 4, the read; a further pass follows only a
    complete read in run-forever mode.  With no reply left the write
    has been made and the read has not returned. *)
Fixpoint ack_wait_calls (fd : Z) (forever : bool) (rs : list interrupt_reply)
  : list event :=
  match rs with
  | [] => [EvPwrite fd [0; 0; 0; 1] 4 0 4]
  | r :: rest =>
      EvPwrite fd [0; 0; 0; 1] 4 0 (wr_ret r)
      :: (if wr_ret r =? 4 then
            EvPread fd 4 0 (rd_ret r)
            :: (if (rd_ret r =? 4) && forever
                then ack_wait_calls fd forever rest
                else [])
          else [])
  end.

Definition full_transfer (r : interrupt_reply) : Prop :=
  wr_ret r = 4 /\ rd_ret r = 4.

Definition short_transfer (r : interrupt_reply) : Prop :=
  wr_ret r <> 4 \/ rd_ret r <> 4.

(** The device calls of one complete cycle, and of the cycle in which
    a transfer came up short. *)
Definition cycle_io (fd : Z) (r : interrupt_reply) : list event :=
  [EvPwrite fd startval 4 0 4; EvPread fd 4 0 4].

Definition failed_io (fd : Z) (r : interrupt_reply) : list event :=
  if wr_ret r =? 4 then [EvPwrite fd startval 4 0 4; EvPread fd 4 0 (rd_ret r)]
  else [EvPwrite fd startval 4 0 (wr_ret r)].

(** A request the program does not implement: a width other than 4 or
    a region other than 0, as the option loop stores it. *)
Definition unsupported_request (o : option_token) : Prop :=
  match o with
  | OptW n => CInt.to_int (n_value n) <> 4
  | OptR n => CInt.to_int (n_value n) <> 0
  | _ => False
  end.

(** The word the mapping holds at [addr]. *)
Definition word_at (mem : list Z) (addr : Z) : Z := default 0 (load32 mem addr).

(** The calls and the line of the [i]-th pass of the read loop started
    at [start]. *)
Definition read_pass (mem : list Z) (start : Z) (i : nat) : list event :=
  let addr := start + 4 * Z.of_nat i in
  [EvLoad addr; EvStdout (OutWord (word_line addr (CInt.to_int (word_at mem addr))))].

Definition word_event (mem : list Z) (start : Z) (i : nat) : event :=
  let addr := start + 4 * Z.of_nat i in
  EvStdout (OutWord (word_line addr (word_at mem addr))).

Definition numeric (z : Z) : number := {| n_value := z; n_errno := false |}.

Definition arg_path (s : string) : argument :=
  {| a_text := s; a_number := {| n_value := 0; n_errno := false |} |}.

Definition arg_number (text : string) (z : Z) : argument :=
  {| a_text := text; a_number := numeric z |}.

Definition remap (env : environment) (mem : list Z) : environment :=
  {| open_ret := open_ret env; mmap_ret := Some mem; replies := replies env;
     beyond := beyond env |}.

(** [uioctl -n <n> <fpath> <start>] and [uioctl <fpath> <addr> <value>]. *)
Definition read_run (p : platform) (env : environment) (fpath : string)
    (n : nat) (start : Z) : result :=
  main p env [OptN (numeric (Z.of_nat n))] [arg_path fpath; arg_number "" start].

Definition write_run (p : platform) (env : environment) (fpath : string)
    (addr v : Z) : result :=
  main p env [] [arg_path fpath; arg_number "" addr; arg_number "" v].

(** A device whose region 0 is one page of zeroes, mapped in a
    process that has nothing behind that page; and one whose [mmap]
    fails, in a process that has nothing mapped where [MAP_FAILED]
    points. *)
Definition page_env : environment :=
  {| open_ret := 3; mmap_ret := Some (replicate 4096 0); replies := [];
     beyond := nothing_beyond |}.

(** The same page in a process whose next page is mapped too (and
    holds zeroes). *)
Definition adjacent_env : environment :=
  {| open_ret := 3; mmap_ret := Some (replicate 4096 0); replies := [];
     beyond := fun o => if (4096 <=? o) && (o <? 8192) then Some 0 else None |}.

Definition unmappable_env : environment :=
  {| open_ret := 3; mmap_ret := None; replies := [];
     beyond := nothing_beyond |}.

(** A device that delivers two interrupts (counters 2 and 3). *)
Definition reply_2 : interrupt_reply :=
  {| wr_ret := 4; rd_ret := 4;
     rd_buf := {| b0 := 2; b1 := 0; b2 := 0; b3 := 0 |};
     tp_time := 10; tp_millitm := 5 |}.

Definition reply_3 : interrupt_reply :=
  {| wr_ret := 4; rd_ret := 4;
     rd_buf := {| b0 := 3; b1 := 0; b2 := 0; b3 := 0 |};
     tp_time := 12; tp_millitm := 0 |}.

Definition two_interrupts_env : environment :=
  {| open_ret := 3; mmap_ret := None; replies := [reply_2; reply_3];
     beyond := nothing_beyond |}.

(** The same device with a read that returns 2 bytes in between. *)
Definition short_read : interrupt_reply :=
  {| wr_ret := 4; rd_ret := 2;
     rd_buf := {| b0 := 0; b1 := 0; b2 := 0; b3 := 0 |};
     tp_time := 11; tp_millitm := 0 |}.

Definition short_read_env : environment :=
  {| open_ret := 3; mmap_ret := None;
     replies := [reply_2; short_read; reply_3];
     beyond := nothing_beyond |}.

(** ** Further vocabulary for the option loop, the traces and the words *)

(** The options at which the [switch] leaves the loop through [exit]. *)
Definition stops_loop (o : option_token) : bool :=
  match o with
  | OptH | OptL | OptOther => true
  | OptM | OptX => false
  | OptR n => n_errno n || negb (CInt.to_int (n_value n) =? 0)
  | OptN n => n_errno n
  | OptW n => n_errno n || negb (CInt.to_int (n_value n) =? 4)
  end.

Definition selects_monitor (o : option_token) : bool :=
  match o with
  | OptM | OptX => true
  | _ => false
  end.

Definition is_opt_x (o : option_token) : bool :=
  match o with
  | OptX => true
  | _ => false
  end.

(** The value the last [-n] leaves in [count]. *)
Definition last_count (opts : list option_token) (count : Z) : Z :=
  fold_left (fun c o => match o with
                        | OptN n => CInt.to_int (n_value n)
                        | _ => c
                        end) opts count.

Definition with_width (s : settings) (width : Z) : settings :=
  {| s_mode := s_mode s; s_region := s_region s; s_count := s_count s;
     s_width := width; s_forever := s_forever s |}.

Definition with_region (s : settings) (region : Z) : settings :=
  {| s_mode := s_mode s; s_region := region; s_count := s_count s;
     s_width := s_width s; s_forever := s_forever s |}.

Definition arg_errno (a : argument) : bool := n_errno (a_number a).

Definition uses_mapping (e : event) : bool :=
  match e with
  | EvMmap _ _ _ _ | EvLoad _ | EvStore _ _ | EvMunmap _ => true
  | _ => false
  end.

Definition is_cleanup (e : event) : bool :=
  match e with
  | EvMunmap _ | EvClose _ => true
  | _ => false
  end.

Definition is_close_call (e : event) : bool :=
  match e with
  | EvClose _ => true
  | _ => false
  end.

Definition is_stdout (e : event) : bool :=
  match e with
  | EvStdout _ => true
  | _ => false
  end.

(** The four bytes of a word in the order they lie in the mapping. *)
Definition le_bytes (v : Z) : list Z :=
  [v mod 256; (v / 256) mod 256; (v / 65536) mod 256; (v / 16777216) mod 256].

(** What one complete pass of the monitor loop does and prints. *)
Definition interrupt_line (p : platform) (r : interrupt_reply) : event :=
  EvStdout (OutInterrupt (tp_time r) (tp_millitm r) (decode_counter p (rd_buf r))).

Definition full_pass (p : platform) (fd : Z) (r : interrupt_reply) : list event :=
  [EvPwrite fd startval 4 0 4; EvPread fd 4 0 4; EvFtime; interrupt_line p r].

(** 1 when the byte has its top bit set. *)
Definition top_bit (b : Z) : Z := if 128 <=? b then 1 else 0.

Definition is_open_call (e : event) : bool :=
  match e with
  | EvOpen _ _ _ => true
  | _ => false
  end.

(** Calls on the device other than [open] itself. *)
Definition after_open (e : event) : bool :=
  touches_device e && negb (is_open_call e).

(** * Properties *)

(** ** C integers *)

Lemma to_uint_range z : 0 <= CInt.to_uint z < 4294967296.
Proof. unfold CInt.to_uint. apply Z.mod_pos_bound. lia. Qed.

Lemma to_uint_small z : 0 <= z < 4294967296 -> CInt.to_uint z = z.
Proof. intros H. unfold CInt.to_uint. apply Z.mod_small. exact H. Qed.

Lemma to_int_small z : -2147483648 <= z < 2147483648 -> CInt.to_int z = z.
Proof.
  intros H. unfold CInt.to_int, CInt.to_uint.
  destruct (Z_lt_dec z 0) as [Hneg | Hpos].
  - replace (z mod 4294967296) with (z + 4294967296).
    + destruct (Z.ltb_spec (z + 4294967296) 2147483648); lia.
    + apply Z.mod_unique with (q := -1); lia.
  - rewrite Z.mod_small by lia.
    destruct (Z.ltb_spec z 2147483648); lia.
Qed.

Lemma to_uint_to_int z : CInt.to_uint (CInt.to_int z) = CInt.to_uint z.
Proof.
  unfold CInt.to_int. destruct (Z.ltb_spec (CInt.to_uint z) 2147483648).
  - apply to_uint_small. apply to_uint_range.
  - unfold CInt.to_uint.
    replace (z mod 4294967296 - 4294967296)
      with (z mod 4294967296 + (-1) * 4294967296) by lia.
    rewrite Z.mod_add by lia. apply Z.mod_mod. lia.
Qed.

(** ** Hexadecimal *)

Lemma digits_length n v : length (Hex.digits n v) = n.
Proof.
  revert v. induction n as [| n IH]; intros v; simpl; [reflexivity |].
  rewrite length_app, IH. simpl. lia.
Qed.

Lemma string_length_of_list l :
  String.length (string_of_list_ascii l) = length l.
Proof. induction l as [| c l IH]; simpl; congruence. Qed.

Lemma fmt_08x_length v : String.length (Hex.fmt_08x v) = 8%nat.
Proof. unfold Hex.fmt_08x. rewrite string_length_of_list. apply digits_length. Qed.

Lemma digit_value_digit d : 0 <= d < 16 -> Hex.digit_value (Hex.digit d) = Some d.
Proof.
  intros H.
  assert (Hc : d = 0 \/ d = 1 \/ d = 2 \/ d = 3 \/ d = 4 \/ d = 5 \/ d = 6 \/ d = 7
               \/ d = 8 \/ d = 9 \/ d = 10 \/ d = 11 \/ d = 12 \/ d = 13
               \/ d = 14 \/ d = 15) by lia.
  repeat (destruct Hc as [-> | Hc]; [reflexivity |]). subst d. reflexivity.
Qed.

Lemma parse_from_app l1 l2 acc :
  Hex.parse_from acc (l1 ++ l2) =
  match Hex.parse_from acc l1 with
  | Some a => Hex.parse_from a l2
  | None => None
  end.
Proof.
  revert acc. induction l1 as [| c l1 IH]; intros acc; simpl; [reflexivity |].
  destruct (Hex.digit_value c); [apply IH | reflexivity].
Qed.

Lemma parse_digits n v :
  0 <= v -> Hex.parse_from 0 (Hex.digits n v) = Some (v mod 16 ^ Z.of_nat n).
Proof.
  revert v. induction n as [| n IH]; intros v Hv.
  - simpl. rewrite Z.mod_1_r. reflexivity.
  - cbn [Hex.digits]. rewrite parse_from_app, IH by (apply Z.div_pos; lia).
    cbn [Hex.parse_from]. rewrite digit_value_digit by (apply Z.mod_pos_bound; lia).
    f_equal. rewrite Nat2Z.inj_succ, Z.pow_succ_r by lia.
    rewrite (Z.mul_comm 16), Z.rem_mul_r by lia. lia.
Qed.

Lemma parse_fmt_08x v : Hex.parse (Hex.fmt_08x v) = Some (CInt.to_uint v).
Proof.
  unfold Hex.parse, Hex.fmt_08x.
  rewrite list_ascii_of_string_of_list_ascii.
  pose proof (to_uint_range v) as Hr.
  rewrite parse_digits by lia. f_equal.
  apply Z.mod_small. change (16 ^ Z.of_nat 8) with 4294967296. exact Hr.
Qed.

Lemma fmt_08x_to_int v : Hex.fmt_08x (CInt.to_int v) = Hex.fmt_08x v.
Proof. unfold Hex.fmt_08x. rewrite to_uint_to_int. reflexivity. Qed.

Example fmt_08x_ex1 : Hex.fmt_08x 255 = "000000ff"%string.
Proof. reflexivity. Qed.

Example fmt_08x_ex2 : Hex.fmt_08x (-1) = "ffffffff"%string.
Proof. reflexivity. Qed.

Example parse_ex1 : Hex.parse "0000beef" = Some 48879.
Proof. reflexivity. Qed.

(** ** The interrupt counter *)

(** Where no byte has its top bit set the printed counter is the
    little-endian value, whatever the signedness of [char]. *)
Lemma decode_counter_low_bytes p buf :
  0 <= b0 buf < 128 -> 0 <= b1 buf < 128 -> 0 <= b2 buf < 128 ->
  0 <= b3 buf < 128 ->
  decode_counter p buf = le_u32 buf.
Proof.
  intros H0 H1 H2 H3. unfold decode_counter, le_u32, char_value, CInt.add, CInt.mul.
  replace (128 <=? b0 buf) with false by (symmetry; apply Z.leb_gt; lia).
  replace (128 <=? b1 buf) with false by (symmetry; apply Z.leb_gt; lia).
  replace (128 <=? b2 buf) with false by (symmetry; apply Z.leb_gt; lia).
  replace (128 <=? b3 buf) with false by (symmetry; apply Z.leb_gt; lia).
  rewrite !andb_false_r.
  rewrite (to_int_small (b3 buf * 16777216)) by lia.
  rewrite (to_int_small (b2 buf * 65536)) by lia.
  rewrite (to_int_small (b1 buf * 256)) by lia.
  rewrite (to_int_small (b3 buf * 16777216 + b2 buf * 65536)) by lia.
  rewrite (to_int_small (b3 buf * 16777216 + b2 buf * 65536 + b1 buf * 256)) by lia.
  apply to_int_small. lia.
Qed.

(** C2: the counter [monitor] prints is not the little-endian unsigned
    value once a byte has its top bit set.  With a signed [char] the
    buffer [{0x80, 0, 0, 0}] (counter 128) is printed as -128; under
    either signedness [{0, 0, 0, 0x80}] is printed as -2147483648. *)
Theorem decode_counter_top_bit :
  byte_buffer {| b0 := 128; b1 := 0; b2 := 0; b3 := 0 |} /\
  decode_counter x86 {| b0 := 128; b1 := 0; b2 := 0; b3 := 0 |} = -128 /\
  le_u32 {| b0 := 128; b1 := 0; b2 := 0; b3 := 0 |} = 128 /\
  byte_buffer {| b0 := 0; b1 := 0; b2 := 0; b3 := 128 |} /\
  (forall p, decode_counter p {| b0 := 0; b1 := 0; b2 := 0; b3 := 128 |}
             = -2147483648) /\
  le_u32 {| b0 := 0; b1 := 0; b2 := 0; b3 := 128 |} = 2147483648.
Proof.
  unfold byte_buffer, is_byte; simpl.
  repeat split; try lia; try reflexivity.
  intros [[|]]; reflexivity.
Qed.

Example decode_counter_unsigned_char :
  decode_counter arm {| b0 := 128; b1 := 0; b2 := 0; b3 := 0 |} = 128.
Proof. reflexivity. Qed.

Example decode_counter_framing p :
  decode_counter p {| b0 := 2; b1 := 0; b2 := 0; b3 := 0 |} = 2.
Proof. destruct p as [[|]]; reflexivity. Qed.

(** ** The monitor loop *)

Lemma filter_take_prefix {A} (f : A -> bool) (l : list A) (n : nat) :
  exists m, List.filter f (take n l) = take m (List.filter f l).
Proof.
  revert n. induction l as [| x l IH]; intros n.
  - exists 0%nat. destruct n; reflexivity.
  - destruct n as [| n].
    + exists 0%nat. reflexivity.
    + destruct (IH n) as [m Hm]. simpl. destruct (f x).
      * exists (S m). simpl. congruence.
      * exists m. exact Hm.
Qed.

Lemma ack_wait_order_take fd l :
  ack_wait_order fd l -> forall n, ack_wait_order fd (take n l).
Proof.
  induction 1 as [| ret | ret rest Hrest IH]; intros n.
  - destruct n; constructor.
  - destruct n as [| n]; simpl; [constructor |].
    destruct n; constructor.
  - destruct n as [| [| n]]; simpl.
    + constructor.
    + constructor.
    + constructor. apply IH.
Qed.

Lemma monitor_loop_order p fd forever rs :
  ack_wait_order fd (List.filter is_device_io (monitor_loop p fd forever rs).1).
Proof.
  induction rs as [| r rest IH]; simpl; [constructor |].
  unfold monitor_iteration.
  destruct (Z.eqb_spec (wr_ret r) 4) as [Hw | Hw]; simpl.
  - destruct (Z.eqb_spec (rd_ret r) 4) as [Hr | Hr]; simpl.
    + destruct forever.
      * destruct (monitor_loop p fd true rest) as [evs o]. simpl in *.
        rewrite Hw. constructor. exact IH.
      * simpl. rewrite Hw. repeat constructor.
    + rewrite Hw. repeat constructor.
  - constructor.
Qed.

Lemma monitor_iteration_io p fd r :
  List.filter is_device_io (monitor_iteration p fd r).1 =
  EvPwrite fd [0; 0; 0; 1] 4 0 (wr_ret r)
    :: (if wr_ret r =? 4 then [EvPread fd 4 0 (rd_ret r)] else []).
Proof.
  unfold monitor_iteration.
  destruct (wr_ret r =? 4); simpl; [| reflexivity].
  destruct (rd_ret r =? 4); reflexivity.
Qed.

Lemma monitor_loop_calls p fd forever rs :
  List.filter is_device_io (monitor_loop p fd forever rs).1 =
  ack_wait_calls fd forever rs.
Proof.
  induction rs as [| r rest IH]; [reflexivity |].
  cbn [monitor_loop ack_wait_calls]. unfold monitor_iteration.
  destruct (wr_ret r =? 4); cbn [negb]; [| reflexivity].
  destruct (rd_ret r =? 4); cbn [negb andb]; [| reflexivity].
  destruct forever.
  - destruct (monitor_loop p fd true rest) as [evs o]. simpl in *.
    rewrite IH. reflexivity.
  - reflexivity.
Qed.

(** C1: every run of [monitor] on a device file that opened makes, in
    each pass of the loop, first the 4-byte write of [{0, 0, 0, 1}] at
    offset 0 and, only when that write returned 4, the 4-byte read at
    offset 0; its calls on the device file are exactly these, pass
    after pass, in this order ([ack_wait_calls]), and none when the
    open failed.  Hence at every point of every run the calls made so
    far are complete writes each followed by one read, with at most a
    last write whose read has not returned; the body of one pass makes
    the write and then, if it returned 4, the read. *)
Theorem monitor_ack_before_wait p env fpath forever n :
  ack_wait_order (open_ret env)
    (List.filter is_device_io (take n (monitor p env fpath forever).1)) /\
  List.filter is_device_io (monitor p env fpath forever).1 =
    (if open_ret env <? 1 then []
     else ack_wait_calls (open_ret env) forever (replies env)) /\
  (forall fd r,
      List.filter is_device_io (monitor_iteration p fd r).1 =
      EvPwrite fd [0; 0; 0; 1] 4 0 (wr_ret r)
        :: (if wr_ret r =? 4 then [EvPread fd 4 0 (rd_ret r)] else [])).
Proof.
  split; [| split; [| apply monitor_iteration_io]].
  - destruct (filter_take_prefix is_device_io (monitor p env fpath forever).1 n)
      as [m ->].
    apply ack_wait_order_take.
    unfold monitor. destruct (open_ret env <? 1); simpl; [constructor |].
    pose proof (monitor_loop_order p (open_ret env) forever (replies env)) as H.
    destruct (monitor_loop p (open_ret env) forever (replies env)) as [evs o].
    exact H.
  - unfold monitor. destruct (open_ret env <? 1); [reflexivity |].
    pose proof (monitor_loop_calls p (open_ret env) forever (replies env)) as H.
    destruct (monitor_loop p (open_ret env) forever (replies env)) as [evs o].
    exact H.
Qed.

Example monitor_two_interrupts :
  monitor x86
    {| open_ret := 3; mmap_ret := None;
       replies := [ {| wr_ret := 4; rd_ret := 4;
                       rd_buf := {| b0 := 2; b1 := 0; b2 := 0; b3 := 0 |};
                       tp_time := 10; tp_millitm := 5 |};
                    {| wr_ret := 4; rd_ret := 0;
                       rd_buf := {| b0 := 0; b1 := 0; b2 := 0; b3 := 0 |};
                       tp_time := 11; tp_millitm := 0 |} ];
       beyond := nothing_beyond |}
    "/dev/uio0" true
  = ([EvStdout (OutWaiting "/dev/uio0"); EvOpen "/dev/uio0" false 3;
      EvPwrite 3 [0; 0; 0; 1] 4 0 4; EvPread 3 4 0 4; EvFtime;
      EvStdout (OutInterrupt 10 5 2);
      EvPwrite 3 [0; 0; 0; 1] 4 0 4; EvPread 3 4 0 0; EvFtime; EvPerror;
      EvStderr "Problem reading from device file"],
     Exited EXIT_FAILURE).
Proof. reflexivity. Qed.

Lemma monitor_loop_short p fd forever good bad rest :
  (forever = false -> good = []) ->
  Forall full_transfer good ->
  short_transfer bad ->
  exists tr,
    monitor_loop p fd forever (good ++ bad :: rest) = (tr, Exited EXIT_FAILURE) /\
    List.filter is_device_io tr = flat_map (cycle_io fd) good ++ failed_io fd bad.
Proof.
  intros Honce Hgood Hbad. induction Hgood as [| g good [Hgw Hgr] Hgood IH].
  - simpl. unfold monitor_iteration, failed_io.
    destruct (Z.eqb_spec (wr_ret bad) 4) as [Hw | Hw]; simpl.
    + destruct (Z.eqb_spec (rd_ret bad) 4) as [Hr | Hr]; simpl.
      * destruct Hbad; contradiction.
      * eexists. split; [reflexivity |]. simpl. rewrite Hw. reflexivity.
    + eexists. split; reflexivity.
  - destruct forever; [| specialize (Honce eq_refl); discriminate].
    destruct IH as [tr [Htr Hio]]; [discriminate |].
    simpl. unfold monitor_iteration. rewrite Hgw, Hgr. simpl.
    rewrite Htr. eexists. split; [reflexivity |]. simpl. rewrite Hio. reflexivity.
Qed.

(** C9: when a write or a read on the device file in the monitor loop
    transfers something other than 4 bytes, the process exits with
    [EXIT_FAILURE] and that short transfer is the last call ever made
    on the device file: nothing is retried and the loop is not entered
    again, whatever the device would have answered next. *)
Theorem monitor_short_transfer_fatal p env fpath forever good bad rest :
  1 <= open_ret env ->
  replies env = good ++ bad :: rest ->
  (forever = false -> good = []) ->
  Forall full_transfer good ->
  short_transfer bad ->
  (monitor p env fpath forever).2 = Exited EXIT_FAILURE /\
  EXIT_FAILURE <> EXIT_SUCCESS /\
  List.filter is_device_io (monitor p env fpath forever).1 =
    flat_map (cycle_io (open_ret env)) good ++ failed_io (open_ret env) bad.
Proof.
  intros Hfd Hrs Honce Hgood Hbad.
  destruct (monitor_loop_short p (open_ret env) forever good bad rest
              Honce Hgood Hbad) as [tr [Htr Hio]].
  unfold monitor. replace (open_ret env <? 1) with false
    by (symmetry; apply Z.ltb_ge; lia).
  rewrite Hrs, Htr. simpl. repeat split; [discriminate | exact Hio].
Qed.

Lemma monitor_short_transfer_fatal_witness :
  (monitor x86 short_read_env "/dev/uio0" true).2 = Exited EXIT_FAILURE /\
  EXIT_FAILURE <> EXIT_SUCCESS /\
  List.filter is_device_io (monitor x86 short_read_env "/dev/uio0" true).1 =
    flat_map (cycle_io 3) [reply_2] ++ failed_io 3 short_read.
Proof.
  apply (monitor_short_transfer_fatal x86 short_read_env "/dev/uio0" true
           [reply_2] short_read [reply_3]).
  - simpl. lia.
  - reflexivity.
  - discriminate.
  - repeat constructor.
  - right. simpl. lia.
Defined.

(** ** The option loop *)

Ltac getopt_step :=
  repeat match goal with
    | H : (_, inr _) = (_, inl _) |- _ => discriminate H
    | H : (_, inl _) = (_, inr _) |- _ => discriminate H
    | H : context [if n_errno ?n then _ else _] |- _ => destruct (n_errno n)
    | H : context [if negb (?a =? ?b) then _ else _] |- _ =>
        destruct (Z.eqb_spec a b); cbn [negb] in H
    | |- context [if n_errno ?n then _ else _] => destruct (n_errno n)
    | |- context [if negb (?a =? ?b) then _ else _] =>
        destruct (Z.eqb_spec a b); cbn [negb]
    end.

(** Options that are accepted print nothing; the loop never clears
    [MODE_MONITOR], never sets [forever] again, and leaves no mode other
    than [MODE_READ] and [MODE_MONITOR], no width other than 4 and no
    region other than 0. *)
Lemma getopt_loop_accept opts s0 evs s :
  getopt_loop opts s0 = (evs, inl s) ->
  evs = [] /\
  (s_forever s0 = false -> s_forever s = false) /\
  (s_mode s0 = MODE_MONITOR -> s_mode s = MODE_MONITOR) /\
  (s_mode s0 = MODE_READ -> s_mode s = MODE_READ \/ s_mode s = MODE_MONITOR) /\
  (s_width s0 = 4 -> s_width s = 4) /\
  (s_region s0 = 0 -> s_region s = 0).
Proof.
  revert s0. induction opts as [| o rest IH]; intros s0 H.
  - simpl in H. inversion H; subst. tauto.
  - destruct o; cbn [getopt_loop usage list_devices] in H;
      try (simpl in H; discriminate H); getopt_step;
      apply IH in H; cbn [s_mode s_forever s_width s_region] in H;
      intuition congruence.
Qed.

Lemma getopt_loop_mode opts evs s :
  getopt_loop opts initial_settings = (evs, inl s) ->
  s_mode s = MODE_READ \/ s_mode s = MODE_MONITOR.
Proof. intros H. apply getopt_loop_accept in H. apply H. reflexivity. Qed.

Lemma getopt_loop_x opts s0 evs s :
  In OptX opts ->
  getopt_loop opts s0 = (evs, inl s) ->
  s_mode s = MODE_MONITOR /\ s_forever s = false.
Proof.
  revert s0. induction opts as [| o rest IH]; intros s0 Hin H; [destruct Hin |].
  destruct Hin as [-> | Hin].
  - cbn [getopt_loop] in H. apply getopt_loop_accept in H.
    cbn [s_mode s_forever] in H. intuition.
  - destruct o; cbn [getopt_loop usage list_devices] in H;
      try (simpl in H; discriminate H); getopt_step; eauto.
Qed.

(** An unsupported width or region ends the run inside the option
    loop at the latest; the status is that of the first option the loop
    stops at. *)
Lemma getopt_loop_stops_by pre o post s0 :
  unsupported_request o ->
  exists evs,
    getopt_loop (pre ++ o :: post) s0 =
      (evs, inr match List.find stops_loop pre with
                | Some OptH => EXIT_SUCCESS
                | _ => EXIT_FAILURE
                end) /\
    List.filter touches_device evs = [].
Proof.
  intros Hbad. revert s0. induction pre as [| o' rest IH]; intros s0.
  - cbn [app List.find].
    destruct o; cbn [unsupported_request] in Hbad; try contradiction;
      cbn [getopt_loop]; getopt_step; try contradiction;
      eexists; split; reflexivity.
  - destruct o'; cbn [app List.find stops_loop getopt_loop usage list_devices];
      try apply IH; try (eexists; split; reflexivity).
    + destruct (n_errno n); cbn [orb]; [eexists; split; reflexivity |].
      destruct (Z.eqb_spec (CInt.to_int (n_value n)) 0); cbn [negb];
        [apply IH | eexists; split; reflexivity].
    + destruct (n_errno n); [eexists; split; reflexivity | apply IH].
    + destruct (n_errno n); cbn [orb]; [eexists; split; reflexivity |].
      destruct (Z.eqb_spec (CInt.to_int (n_value n)) 4); cbn [negb];
        [apply IH | eexists; split; reflexivity].
Qed.

(** ** Run-once mode *)

(** C5: with [-x] among the accepted options, a device file that opens
    and one complete write and read, [main] makes exactly one
    acknowledge write and one blocking read, prints exactly one
    interrupt line and exits with [EXIT_SUCCESS], whatever the device
    would have answered afterwards ([rest]). *)
Theorem run_once_single_cycle p env opts evs s a r rest :
  In OptX opts ->
  getopt_loop opts initial_settings = (evs, inl s) ->
  1 <= open_ret env ->
  replies env = r :: rest ->
  full_transfer r ->
  r_outcome (main p env opts [a]) = Exited EXIT_SUCCESS /\
  List.filter is_device_io (r_trace (main p env opts [a])) =
    [EvPwrite (open_ret env) [0; 0; 0; 1] 4 0 4; EvPread (open_ret env) 4 0 4] /\
  List.filter is_interrupt_output (r_trace (main p env opts [a])) =
    [EvStdout (OutInterrupt (tp_time r) (tp_millitm r)
                            (decode_counter p (rd_buf r)))].
Proof.
  intros Hx Hopts Hfd Hrs [Hw Hr].
  destruct (getopt_loop_x opts _ _ _ Hx Hopts) as [Hmode Hforever].
  destruct (getopt_loop_accept _ _ _ _ Hopts) as [-> _].
  unfold main. rewrite Hopts, Hmode. unfold monitor.
  replace (open_ret env <? 1) with false by (symmetry; apply Z.ltb_ge; lia).
  rewrite Hforever, Hrs. cbn [monitor_loop]. unfold monitor_iteration.
  rewrite Hw, Hr. simpl. auto.
Qed.

Lemma run_once_single_cycle_witness :
  r_outcome (main x86 two_interrupts_env [OptX] [arg_path "/dev/uio0"])
    = Exited EXIT_SUCCESS /\
  List.filter is_device_io
    (r_trace (main x86 two_interrupts_env [OptX] [arg_path "/dev/uio0"])) =
    [EvPwrite 3 [0; 0; 0; 1] 4 0 4; EvPread 3 4 0 4] /\
  List.filter is_interrupt_output
    (r_trace (main x86 two_interrupts_env [OptX] [arg_path "/dev/uio0"])) =
    [EvStdout (OutInterrupt 10 5 (decode_counter x86 (rd_buf reply_2)))].
Proof.
  apply (run_once_single_cycle x86 two_interrupts_env [OptX] []
           {| s_mode := MODE_MONITOR; s_region := 0; s_count := 1;
              s_width := 4; s_forever := false |}
           (arg_path "/dev/uio0") reply_2 [reply_3]).
  - left. reflexivity.
  - reflexivity.
  - simpl. lia.
  - reflexivity.
  - split; reflexivity.
Defined.

(** ** Unsupported width and region *)

(** C8, as the code has it: an invocation whose options include a
    width other than 4 or a region other than 0 ends inside the option
    loop, before any call on a device file (no open, map, read, write,
    load or store).  It exits with [EXIT_FAILURE], except that when
    the first option the loop stops at is a [-h] standing before the
    unsupported one, the usage text is printed and the status is
    [EXIT_SUCCESS]. *)
Theorem unsupported_request_no_device p env pre o post args :
  unsupported_request o ->
  r_outcome (main p env (pre ++ o :: post) args) =
    Exited match List.find stops_loop pre with
           | Some OptH => EXIT_SUCCESS
           | _ => EXIT_FAILURE
           end /\
  List.filter touches_device (r_trace (main p env (pre ++ o :: post) args)) = [].
Proof.
  intros Hbad.
  destruct (getopt_loop_stops_by pre o post initial_settings Hbad)
    as (evs & Hloop & Hquiet).
  unfold main. rewrite Hloop. split; [reflexivity | exact Hquiet].
Qed.

Lemma unsupported_request_no_device_witness :
  r_outcome (main x86 unmappable_env
               ([OptN (numeric 2)] ++ OptW (numeric 8) :: [OptH])
               [arg_path "/dev/uio0"; arg_number "0" 0])
    = Exited EXIT_FAILURE /\
  List.filter touches_device
    (r_trace (main x86 unmappable_env
                ([OptN (numeric 2)] ++ OptW (numeric 8) :: [OptH])
                [arg_path "/dev/uio0"; arg_number "0" 0])) = [].
Proof.
  apply (unsupported_request_no_device x86 unmappable_env
           [OptN (numeric 2)] (OptW (numeric 8)) [OptH]).
  simpl. vm_compute. discriminate.
Defined.

(** C8, as stated, fails: [uioctl -h -w 8 /dev/uio0 0] asks for width 8
    and exits with status 0 after printing the usage text. *)
Lemma help_before_width_exits_0 :
  In (OptW (numeric 8)) [OptH; OptW (numeric 8)] /\
  unsupported_request (OptW (numeric 8)) /\
  r_outcome (main x86 {| open_ret := 3; mmap_ret := None; replies := [];
     beyond := nothing_beyond |}
               [OptH; OptW (numeric 8)]
               [arg_path "/dev/uio0"; arg_number "0" 0])
    = Exited 0 /\
  ~ (forall p env opts args o,
        In o opts -> unsupported_request o ->
        exists status,
          r_outcome (main p env opts args) = Exited status /\ status <> 0).
Proof.
  split; [right; left; reflexivity |].
  split; [vm_compute; discriminate |].
  split; [reflexivity |].
  intros H.
  destruct (H x86 {| open_ret := 3; mmap_ret := None; replies := [];
     beyond := nothing_beyond |}
              [OptH; OptW (numeric 8)] [] (OptW (numeric 8)))
    as (status & Hout & Hne).
  - right. left. reflexivity.
  - vm_compute. discriminate.
  - vm_compute in Hout. inversion Hout. subst status. apply Hne. reflexivity.
Qed.

(** ** Reading no word *)

(** C10: in read mode with a count of 0 and a device file that opens,
    [main] prints no register line, makes no load or store through the
    mapping, and exits with [EXIT_SUCCESS], whether or not [mmap]
    succeeded. *)
Theorem read_zero_words p env opts evs s f a :
  getopt_loop opts initial_settings = (evs, inl s) ->
  s_mode s = MODE_READ ->
  s_count s = 0 ->
  n_errno (a_number a) = false ->
  1 <= open_ret env ->
  List.filter is_word_output (r_trace (main p env opts [f; a])) = [] /\
  List.filter is_mapping_access (r_trace (main p env opts [f; a])) = [] /\
  r_outcome (main p env opts [f; a]) = Exited EXIT_SUCCESS.
Proof.
  intros Hopts Hmode Hcount Herr Hfd.
  destruct (getopt_loop_accept _ _ _ _ Hopts) as [-> _].
  unfold main. rewrite Hopts, Hmode, Herr. unfold device_access.
  replace (open_ret env <? 1) with false by (symmetry; apply Z.ltb_ge; lia).
  rewrite Hcount. simpl. auto.
Qed.

Lemma read_zero_words_witness :
  List.filter is_word_output
    (r_trace (main x86 {| open_ret := 3; mmap_ret := None; replies := [];
     beyond := nothing_beyond |}
                [OptN (numeric 0)] [arg_path "/dev/uio0"; arg_number "0x10" 16]))
    = [] /\
  List.filter is_mapping_access
    (r_trace (main x86 {| open_ret := 3; mmap_ret := None; replies := [];
     beyond := nothing_beyond |}
                [OptN (numeric 0)] [arg_path "/dev/uio0"; arg_number "0x10" 16]))
    = [] /\
  r_outcome (main x86 {| open_ret := 3; mmap_ret := None; replies := [];
     beyond := nothing_beyond |}
               [OptN (numeric 0)] [arg_path "/dev/uio0"; arg_number "0x10" 16])
    = Exited EXIT_SUCCESS.
Proof.
  apply (read_zero_words x86 _ [OptN (numeric 0)] []
           {| s_mode := MODE_READ; s_region := 0; s_count := 0;
              s_width := 4; s_forever := true |}).
  - reflexivity.
  - reflexivity.
  - reflexivity.
  - reflexivity.
  - simpl. lia.
Defined.

Example read_zero_words_trace :
  r_trace (main x86 {| open_ret := 3; mmap_ret := None; replies := [];
     beyond := nothing_beyond |}
             [OptN (numeric 0)] [arg_path "/dev/uio0"; arg_number "0x10" 16])
  = [EvOpen "/dev/uio0" true 3; EvMmap 0 3 0 false; EvMunmap 0; EvClose 3].
Proof. reflexivity. Qed.

(** ** Words in the mapping *)

Lemma load32_in_range (mem : list Z) addr :
  0 <= addr -> addr + 4 <= Z.of_nat (length mem) ->
  is_Some (load32 mem addr).
Proof.
  intros H0 H1. unfold load32.
  replace (addr <? 0) with false by (symmetry; apply Z.ltb_ge; lia).
  destruct (lookup_lt_is_Some_2 mem (Z.to_nat addr)) as [x0 ->]; [lia |].
  destruct (lookup_lt_is_Some_2 mem (Z.to_nat addr + 1)) as [x1 ->]; [lia |].
  destruct (lookup_lt_is_Some_2 mem (Z.to_nat addr + 2)) as [x2 ->]; [lia |].
  destruct (lookup_lt_is_Some_2 mem (Z.to_nat addr + 3)) as [x3 ->]; [lia |].
  eexists. reflexivity.
Qed.

Lemma le_bytes_recompose v :
  0 <= v < 4294967296 ->
  v mod 256 + 256 * ((v / 256) mod 256) + 65536 * ((v / 65536) mod 256)
  + 16777216 * ((v / 16777216) mod 256) = v.
Proof. intros H. Z.div_mod_to_equations. lia. Qed.

(** A word stored is the word loaded back from the same address. *)
Lemma load32_store32 (mem mem' : list Z) addr v :
  0 <= v < 4294967296 ->
  store32 mem addr v = Some mem' ->
  load32 mem' addr = Some v.
Proof.
  intros Hv. unfold store32, load32.
  destruct (addr <? 0); [discriminate |].
  destruct (Nat.leb_spec (Z.to_nat addr + 4) (length mem)) as [Hlen | Hlen];
    [| discriminate].
  intros H. inversion H; subst mem'; clear H.
  set (a := Z.to_nat addr) in *.
  rewrite (list_lookup_insert_ne _ (a + 3)%nat a) by lia.
  rewrite (list_lookup_insert_ne _ (a + 2)%nat a) by lia.
  rewrite (list_lookup_insert_ne _ (a + 1)%nat a) by lia.
  rewrite list_lookup_insert_eq by lia.
  rewrite (list_lookup_insert_ne _ (a + 3)%nat (a + 1)%nat) by lia.
  rewrite (list_lookup_insert_ne _ (a + 2)%nat (a + 1)%nat) by lia.
  rewrite list_lookup_insert_eq by (rewrite length_insert; lia).
  rewrite (list_lookup_insert_ne _ (a + 3)%nat (a + 2)%nat) by lia.
  rewrite list_lookup_insert_eq by (rewrite !length_insert; lia).
  rewrite list_lookup_insert_eq by (rewrite !length_insert; lia).
  f_equal. apply le_bytes_recompose. exact Hv.
Qed.

Lemma store32_in_range (mem : list Z) addr v :
  0 <= addr -> addr + 4 <= Z.of_nat (length mem) ->
  is_Some (store32 mem addr v).
Proof.
  intros H0 H1. unfold store32.
  replace (addr <? 0) with false by (symmetry; apply Z.ltb_ge; lia).
  destruct (Nat.leb_spec (Z.to_nat addr + 4) (length mem)); [eexists; reflexivity | lia].
Qed.

Lemma byte_at_in_range (mem : list Z) bey o :
  0 <= o < Z.of_nat (length mem) ->
  byte_at (Some mem) bey o = mem !! Z.to_nat o.
Proof.
  intros H. unfold byte_at.
  replace (0 <=? o) with true by (symmetry; apply Z.leb_le; lia).
  replace (o <? Z.of_nat (length mem)) with true by (symmetry; apply Z.ltb_lt; lia).
  reflexivity.
Qed.

(** Inside the mapped bytes the program's load and store are the
    mapping's. *)
Lemma deref_load_in_range (mem : list Z) bey addr :
  0 <= addr -> addr + 4 <= Z.of_nat (length mem) ->
  deref_load (Some mem) bey addr = load32 mem addr.
Proof.
  intros H0 H1. unfold deref_load, load32.
  rewrite !byte_at_in_range by lia.
  replace (addr <? 0) with false by (symmetry; apply Z.ltb_ge; lia).
  replace (Z.to_nat (addr + 1)) with (Z.to_nat addr + 1)%nat by lia.
  replace (Z.to_nat (addr + 2)) with (Z.to_nat addr + 2)%nat by lia.
  replace (Z.to_nat (addr + 3)) with (Z.to_nat addr + 3)%nat by lia.
  reflexivity.
Qed.

Lemma deref_store_in_range (mem : list Z) bey addr v :
  0 <= addr -> addr + 4 <= Z.of_nat (length mem) ->
  deref_store (Some mem) bey addr v = Some (store32 mem addr (CInt.to_uint v)).
Proof.
  intros H0 H1. unfold deref_store, store32.
  rewrite !byte_at_in_range by lia.
  destruct (lookup_lt_is_Some_2 mem (Z.to_nat addr)) as [x0 ->]; [lia |].
  destruct (lookup_lt_is_Some_2 mem (Z.to_nat (addr + 1))) as [x1 ->]; [lia |].
  destruct (lookup_lt_is_Some_2 mem (Z.to_nat (addr + 2))) as [x2 ->]; [lia |].
  destruct (lookup_lt_is_Some_2 mem (Z.to_nat (addr + 3))) as [x3 ->]; [lia |].
  replace (addr <? 0) with false by (symmetry; apply Z.ltb_ge; lia).
  destruct (Nat.leb_spec (Z.to_nat addr + 4) (length mem)); [| lia].
  unfold write_byte. cbn [option_map].
  replace (0 <=? addr) with true by (symmetry; apply Z.leb_le; lia).
  replace (0 <=? addr + 1) with true by (symmetry; apply Z.leb_le; lia).
  replace (0 <=? addr + 2) with true by (symmetry; apply Z.leb_le; lia).
  replace (0 <=? addr + 3) with true by (symmetry; apply Z.leb_le; lia).
  replace (Z.to_nat (addr + 1)) with (Z.to_nat addr + 1)%nat by lia.
  replace (Z.to_nat (addr + 2)) with (Z.to_nat addr + 2)%nat by lia.
  replace (Z.to_nat (addr + 3)) with (Z.to_nat addr + 3)%nat by lia.
  reflexivity.
Qed.

Lemma word_line_to_int addr v : word_line addr (CInt.to_int v) = word_line addr v.
Proof. unfold word_line. rewrite fmt_08x_to_int. reflexivity. Qed.

(** The read loop over addresses that stay inside the mapped pages:
    pass [i] loads at [start + 4 * i] and prints that address with the
    word found there. *)
Lemma read_words_in_range (mem : list Z) bey start n k :
  0 <= start ->
  start + 4 * Z.of_nat (k + n) <= Z.of_nat (length mem) ->
  start + 4 * Z.of_nat (k + n) <= 2147483648 ->
  read_words (Some mem) bey n (start + 4 * Z.of_nat k) 4 =
  (flat_map (read_pass mem start) (seq k n), true).
Proof.
  revert k. induction n as [| n IH]; intros k H0 Hlen Hint; [reflexivity |].
  cbn [read_words seq flat_map].
  rewrite deref_load_in_range by lia.
  destruct (load32_in_range mem (start + 4 * Z.of_nat k)) as [v Hv]; [lia | lia |].
  rewrite Hv.
  assert (Hrest : read_words (Some mem) bey n (CInt.add (start + 4 * Z.of_nat k) 4) 4
                  = (flat_map (read_pass mem start) (seq (S k) n), true)).
  { destruct n as [| n']; [reflexivity |].
    unfold CInt.add.
    rewrite (to_int_small (start + 4 * Z.of_nat k + 4)) by lia.
    replace (start + 4 * Z.of_nat k + 4) with (start + 4 * Z.of_nat (S k)) by lia.
    apply IH; [exact H0 | |];
      replace (S k + S n')%nat with (k + S (S n'))%nat by lia; assumption. }
  rewrite Hrest. unfold read_pass at 2, word_at. rewrite Hv. reflexivity.
Qed.

Lemma word_outputs_of_passes (mem : list Z) start l :
  List.filter is_word_output (flat_map (read_pass mem start) l) =
  map (word_event mem start) l.
Proof.
  induction l as [| i l IH]; [reflexivity |].
  cbn [flat_map map]. rewrite List.filter_app, IH.
  unfold read_pass, word_event. simpl. rewrite word_line_to_int. reflexivity.
Qed.

Lemma mapping_accesses_of_passes (mem : list Z) start l :
  List.filter is_mapping_access (flat_map (read_pass mem start) l) =
  map (fun i => EvLoad (start + 4 * Z.of_nat i)) l.
Proof.
  induction l as [| i l IH]; [reflexivity |].
  cbn [flat_map map]. rewrite List.filter_app, IH. reflexivity.
Qed.

Lemma read_words_no_report ptr bey n addr width :
  List.filter is_error_report (read_words ptr bey n addr width).1 = [].
Proof.
  revert addr. induction n as [| n IH]; intros addr; [reflexivity |].
  cbn [read_words]. destruct (deref_load ptr bey addr); [| reflexivity].
  specialize (IH (CInt.add addr width)).
  destruct (read_words ptr bey n (CInt.add addr width) width). exact IH.
Qed.

(** Once the device file is open nothing is ever reported: neither
    the result of [mmap] nor the address is looked at. *)
Lemma device_access_no_report env mode f count width addr value :
  1 <= open_ret env ->
  List.filter is_error_report
    (r_trace (device_access env mode f count width addr value)) = [].
Proof.
  intros Hfd. unfold device_access.
  replace (open_ret env <? 1) with false by (symmetry; apply Z.ltb_ge; lia).
  assert (Hread :
    List.filter is_error_report
      (r_trace
         (let '(evs, ok) := read_words (mmap_ret env) (beyond env) (Z.to_nat count) addr width in
          if ok then
            {| r_trace := [EvOpen f true (open_ret env);
                           EvMmap (CInt.mul count width) (open_ret env) 0
                             (bool_decide (is_Some (mmap_ret env)))]
                          ++ evs ++ [EvMunmap (CInt.mul count width);
                                     EvClose (open_ret env)];
               r_outcome := Exited EXIT_SUCCESS; r_mem := mmap_ret env |}
          else
            {| r_trace := [EvOpen f true (open_ret env);
                           EvMmap (CInt.mul count width) (open_ret env) 0
                             (bool_decide (is_Some (mmap_ret env)))] ++ evs;
               r_outcome := Faulted; r_mem := mmap_ret env |})) = []).
  { pose proof (read_words_no_report (mmap_ret env) (beyond env) (Z.to_nat count) addr width) as H.
    destruct (read_words (mmap_ret env) (beyond env) (Z.to_nat count) addr width) as [evs ok].
    simpl in H. destruct ok; simpl; [| exact H].
    rewrite List.filter_app, H. reflexivity. }
  destruct mode; try exact Hread;
    unfold write_word; destruct (deref_store (mmap_ret env) (beyond env) addr value); reflexivity.
Qed.

Lemma device_read_in_range env (mem : list Z) f n start value :
  1 <= open_ret env ->
  mmap_ret env = Some mem ->
  0 <= start ->
  start + 4 * Z.of_nat n <= Z.of_nat (length mem) ->
  start + 4 * Z.of_nat n <= 2147483648 ->
  device_access env MODE_READ f (Z.of_nat n) 4 start value =
  {| r_trace := [EvOpen f true (open_ret env);
                 EvMmap (CInt.mul (Z.of_nat n) 4) (open_ret env) 0 true]
                ++ flat_map (read_pass mem start) (seq 0 n)
                ++ [EvMunmap (CInt.mul (Z.of_nat n) 4); EvClose (open_ret env)];
     r_outcome := Exited EXIT_SUCCESS;
     r_mem := Some mem |}.
Proof.
  intros Hfd Hmap H0 Hlen Hint. unfold device_access.
  replace (open_ret env <? 1) with false by (symmetry; apply Z.ltb_ge; lia).
  rewrite Hmap, Nat2Z.id.
  pose proof (read_words_in_range mem (beyond env) start n 0 H0 Hlen Hint) as Hrw.
  replace (start + 4 * Z.of_nat 0) with start in Hrw by lia.
  rewrite Hrw. reflexivity.
Qed.

Lemma read_run_in_range p env (mem : list Z) f n start :
  1 <= open_ret env ->
  mmap_ret env = Some mem ->
  (1 <= n)%nat ->
  0 <= start ->
  start + 4 * Z.of_nat n <= Z.of_nat (length mem) ->
  start + 4 * Z.of_nat n <= 2147483648 ->
  r_outcome (read_run p env f n start) = Exited EXIT_SUCCESS /\
  r_trace (read_run p env f n start) =
    EvOpen f true (open_ret env)
    :: EvMmap (CInt.mul (Z.of_nat n) 4) (open_ret env) 0 true
    :: flat_map (read_pass mem start) (seq 0 n)
       ++ [EvMunmap (CInt.mul (Z.of_nat n) 4); EvClose (open_ret env)].
Proof.
  intros Hfd Hmap Hn H0 Hlen Hint.
  unfold read_run, main. cbn [getopt_loop numeric n_errno n_value initial_settings
    s_mode s_count s_width arg_number arg_path a_number a_text].
  unfold DEFAULT_WIDTH. rewrite !to_int_small by lia.
  rewrite (device_read_in_range env mem f n start 0 Hfd Hmap H0 Hlen Hint).
  split; reflexivity.
Qed.

Lemma read_run_lines p env (mem : list Z) f n start :
  1 <= open_ret env ->
  mmap_ret env = Some mem ->
  (1 <= n)%nat ->
  0 <= start ->
  start + 4 * Z.of_nat n <= Z.of_nat (length mem) ->
  start + 4 * Z.of_nat n <= 2147483648 ->
  List.filter is_word_output (r_trace (read_run p env f n start)) =
    map (word_event mem start) (seq 0 n).
Proof.
  intros Hfd Hmap Hn H0 Hlen Hint.
  destruct (read_run_in_range p env mem f n start Hfd Hmap Hn H0 Hlen Hint)
    as [_ ->].
  cbn [List.filter is_word_output].
  rewrite List.filter_app, word_outputs_of_passes. apply app_nil_r.
Qed.

(** ** Reading words *)

(** C4, as the code has it: [uioctl -n n fpath start] with [n >= 1], on a device file that
    opens and maps and with [start .. start + 4 n] inside the mapped
    pages, prints exactly [n] lines; line [i] (from 0) carries the
    address [start + 4 i] and the word loaded there, in that order,
    each as ["0x"], 8 hexadecimal digits, a tab, 8 hexadecimal digits,
    a newline. *)
Theorem read_words_progression p env (mem : list Z) f n start :
  1 <= open_ret env ->
  mmap_ret env = Some mem ->
  (1 <= n)%nat ->
  0 <= start ->
  start + 4 * Z.of_nat n <= Z.of_nat (length mem) ->
  start + 4 * Z.of_nat n <= 2147483648 ->
  r_outcome (read_run p env f n start) = Exited EXIT_SUCCESS /\
  List.filter is_word_output (r_trace (read_run p env f n start)) =
    map (word_event mem start) (seq 0 n) /\
  length (List.filter is_word_output (r_trace (read_run p env f n start))) = n /\
  List.filter is_mapping_access (r_trace (read_run p env f n start)) =
    map (fun i => EvLoad (start + 4 * Z.of_nat i)) (seq 0 n) /\
  Forall (fun i =>
            is_Some (load32 mem (start + 4 * Z.of_nat i)) /\
            word_event mem start i =
              EvStdout (OutWord ("0x" ++ Hex.fmt_08x (start + 4 * Z.of_nat i)
                                  ++ TAB
                                  ++ Hex.fmt_08x (word_at mem (start + 4 * Z.of_nat i))
                                  ++ NL)%string) /\
            Hex.parse (Hex.fmt_08x (start + 4 * Z.of_nat i))
              = Some (start + 4 * Z.of_nat i) /\
            String.length (Hex.fmt_08x (start + 4 * Z.of_nat i)) = 8%nat /\
            String.length (Hex.fmt_08x (word_at mem (start + 4 * Z.of_nat i))) = 8%nat /\
            Hex.parse (Hex.fmt_08x (word_at mem (start + 4 * Z.of_nat i)))
              = Some (CInt.to_uint (word_at mem (start + 4 * Z.of_nat i))))
         (seq 0 n).
Proof.
  intros Hfd Hmap Hn H0 Hlen Hint.
  pose proof (read_run_lines p env mem f n start Hfd Hmap Hn H0 Hlen Hint) as Hout.
  destruct (read_run_in_range p env mem f n start Hfd Hmap Hn H0 Hlen Hint)
    as [Hexit Htrace].
  split; [exact Hexit |]. split; [exact Hout |].
  split; [rewrite Hout, length_map, length_seq; reflexivity |].
  split.
  { rewrite Htrace. cbn [List.filter is_mapping_access].
    rewrite List.filter_app, mapping_accesses_of_passes. apply app_nil_r. }
  apply Forall_forall. intros i Hi. apply elem_of_seq in Hi.
  split; [apply load32_in_range; lia |].
  split; [reflexivity |].
  split; [rewrite parse_fmt_08x, to_uint_small by lia; reflexivity |].
  split; [apply fmt_08x_length |].
  split; [apply fmt_08x_length | apply parse_fmt_08x].
Qed.

Lemma read_words_progression_witness :
  r_outcome (read_run x86 page_env "/dev/uio0" 3 16) = Exited EXIT_SUCCESS /\
  List.filter is_word_output (r_trace (read_run x86 page_env "/dev/uio0" 3 16)) =
    map (word_event (replicate 4096 0) 16) (seq 0 3) /\
  length (List.filter is_word_output
            (r_trace (read_run x86 page_env "/dev/uio0" 3 16))) = 3%nat /\
  List.filter is_mapping_access (r_trace (read_run x86 page_env "/dev/uio0" 3 16)) =
    map (fun i => EvLoad (16 + 4 * Z.of_nat i)) (seq 0 3).
Proof.
  pose proof (read_words_progression x86 page_env (replicate 4096 0)
                "/dev/uio0" 3 16) as H.
  destruct H as (H1 & H2 & H3 & H4 & _).
  - simpl. lia.
  - reflexivity.
  - lia.
  - lia.
  - rewrite length_replicate. lia.
  - lia.
  - auto.
Defined.

(** C4, as stated, fails: the address is not checked, and one page
    is mapped in a process with nothing behind it, so
    [uioctl /dev/uio0 0x1000] (one word at 4096) prints no line at all:
    its only load faults. *)
Lemma read_outside_mapped_pages :
  (1 <= 1)%nat /\
  r_trace (read_run x86 page_env "/dev/uio0" 1 4096) =
    [EvOpen "/dev/uio0" true 3; EvMmap 4 3 0 true; EvLoad 4096] /\
  r_outcome (read_run x86 page_env "/dev/uio0" 1 4096) = Faulted /\
  ~ (forall p env f n start,
        (1 <= n)%nat ->
        length (List.filter is_word_output (r_trace (read_run p env f n start))) = n).
Proof.
  split; [lia |]. split; [reflexivity |]. split; [reflexivity |].
  intros H. specialize (H x86 page_env "/dev/uio0"%string 1%nat 4096 (le_n 1)).
  vm_compute in H. discriminate H.
Qed.

(** Where the process does have memory behind the page, the same loop
    runs on into it: nothing tells the two apart. *)
Example read_into_adjacent_memory :
  r_outcome (read_run x86 adjacent_env "/dev/uio0" 4 4088) = Exited EXIT_SUCCESS /\
  List.filter is_mapping_access (r_trace (read_run x86 adjacent_env "/dev/uio0" 4 4088))
  = [EvLoad 4088; EvLoad 4092; EvLoad 4096; EvLoad 4100].
Proof. split; reflexivity. Qed.

(** ** Writing a word and reading it back *)

(** C3: [uioctl fpath addr v] followed by [uioctl fpath addr] on the
    same device, for an address inside the mapped pages and any 32-bit
    [v]: the word in the mapping at [addr] after the write is [v], and
    the read prints exactly one line, for [addr], whose value field is
    [v] in hexadecimal. *)
Theorem write_then_read_round_trip p env (mem : list Z) f addr v :
  1 <= open_ret env ->
  mmap_ret env = Some mem ->
  0 <= addr ->
  addr + 4 <= Z.of_nat (length mem) ->
  addr + 4 <= 2147483648 ->
  0 <= v < 4294967296 ->
  exists mem',
    r_outcome (write_run p env f addr v) = Exited EXIT_SUCCESS /\
    r_mem (write_run p env f addr v) = Some mem' /\
    load32 mem' addr = Some v /\
    r_outcome (read_run p (remap env mem') f 1 addr) = Exited EXIT_SUCCESS /\
    List.filter is_word_output (r_trace (read_run p (remap env mem') f 1 addr)) =
      [EvStdout (OutWord (word_line addr v))] /\
    Hex.parse (Hex.fmt_08x v) = Some v.
Proof.
  intros Hfd Hmap H0 Hlen Hint Hv.
  destruct (store32_in_range mem addr v H0 Hlen) as [mem' Hst].
  assert (Hlen' : length mem' = length mem).
  { unfold store32 in Hst. destruct (addr <? 0); [discriminate |].
    destruct (Z.to_nat addr + 4 <=? length mem)%nat; [| discriminate].
    inversion Hst. rewrite !length_insert. reflexivity. }
  pose proof (load32_store32 mem mem' addr v Hv Hst) as Hld.
  exists mem'.
  assert (Hw : write_run p env f addr v =
               {| r_trace := [EvOpen f true (open_ret env);
                              EvMmap (CInt.mul 1 4) (open_ret env) 0 true;
                              EvStore addr (CInt.to_int v);
                              EvMunmap (CInt.mul 1 4); EvClose (open_ret env)];
                  r_outcome := Exited EXIT_SUCCESS;
                  r_mem := Some mem' |}).
  { unfold write_run, main. cbn [getopt_loop initial_settings s_mode s_count
      s_width arg_number arg_path a_number a_text numeric n_errno n_value orb].
    unfold device_access.
    replace (open_ret env <? 1) with false by (symmetry; apply Z.ltb_ge; lia).
    rewrite Hmap. unfold write_word.
    rewrite (to_int_small addr) by lia.
    rewrite deref_store_in_range by lia.
    rewrite to_uint_to_int, (to_uint_small v) by lia.
    rewrite Hst. reflexivity. }
  rewrite Hw. cbn [r_outcome r_mem].
  assert (Hfd' : 1 <= open_ret (remap env mem')) by exact Hfd.
  assert (Hlen1 : addr + 4 * Z.of_nat 1 <= Z.of_nat (length mem')) by lia.
  assert (Hint1 : addr + 4 * Z.of_nat 1 <= 2147483648) by lia.
  destruct (read_run_in_range p (remap env mem') mem' f 1 addr
              Hfd' eq_refl (le_n 1) H0 Hlen1 Hint1) as [Hout _].
  pose proof (read_run_lines p (remap env mem') mem' f 1 addr
                Hfd' eq_refl (le_n 1) H0 Hlen1 Hint1) as Hlines.
  repeat split; try assumption.
  - rewrite Hlines. cbn [seq map]. unfold word_event, word_at.
    replace (addr + 4 * Z.of_nat 0) with addr by lia.
    rewrite Hld. reflexivity.
  - rewrite parse_fmt_08x, to_uint_small by lia. reflexivity.
Qed.

Lemma write_then_read_round_trip_witness :
  exists mem',
    r_outcome (write_run x86 page_env "/dev/uio0" 16 3735928559)
      = Exited EXIT_SUCCESS /\
    r_mem (write_run x86 page_env "/dev/uio0" 16 3735928559) = Some mem' /\
    load32 mem' 16 = Some 3735928559 /\
    r_outcome (read_run x86 (remap page_env mem') "/dev/uio0" 1 16)
      = Exited EXIT_SUCCESS /\
    List.filter is_word_output
      (r_trace (read_run x86 (remap page_env mem') "/dev/uio0" 1 16)) =
      [EvStdout (OutWord (word_line 16 3735928559))] /\
    Hex.parse (Hex.fmt_08x 3735928559) = Some 3735928559.
Proof.
  apply (write_then_read_round_trip x86 page_env (replicate 4096 0)
           "/dev/uio0" 16 3735928559).
  - simpl. lia.
  - reflexivity.
  - lia.
  - rewrite length_replicate. lia.
  - lia.
  - lia.
Defined.

Example word_line_deadbeef :
  word_line 16 3735928559 = ("0x00000010" ++ TAB ++ "deadbeef" ++ NL)%string.
Proof. reflexivity. Qed.

(** ** Addresses are not checked against the mapped length *)

(** C6, as the code has it: once the device file is open, the read
    branch (for a count of at least 1) issues its first load, and the
    write branch its store, at the address given, whatever the length
    that was mapped; nothing compares the address with that length and
    no error is reported.  The run then ends either with
    [EXIT_SUCCESS] or in a fault of an access; it never ends with a
    failure status. *)
Theorem access_not_bounds_checked env f count width addr value :
  1 <= open_ret env ->
  1 <= count ->
  (exists rest,
      List.filter is_mapping_access
        (r_trace (device_access env MODE_READ f count width addr value))
      = EvLoad addr :: rest) /\
  List.filter is_mapping_access
    (r_trace (device_access env MODE_WRITE f count width addr value))
    = [EvStore addr value] /\
  List.filter is_error_report
    (r_trace (device_access env MODE_READ f count width addr value)) = [] /\
  List.filter is_error_report
    (r_trace (device_access env MODE_WRITE f count width addr value)) = [] /\
  (r_outcome (device_access env MODE_READ f count width addr value)
     = Exited EXIT_SUCCESS \/
   r_outcome (device_access env MODE_READ f count width addr value) = Faulted) /\
  (r_outcome (device_access env MODE_WRITE f count width addr value)
     = Exited EXIT_SUCCESS \/
   r_outcome (device_access env MODE_WRITE f count width addr value) = Faulted).
Proof.
  intros Hfd Hcount.
  split; [| split; [| split; [apply device_access_no_report; exact Hfd |
                     split; [apply device_access_no_report; exact Hfd |]]]].
  - unfold device_access.
    replace (open_ret env <? 1) with false by (symmetry; apply Z.ltb_ge; lia).
    destruct (Z.to_nat count) as [| m] eqn:Hm; [lia |].
    cbn [read_words]. destruct (deref_load (mmap_ret env) (beyond env) addr) as [v |].
    + destruct (read_words (mmap_ret env) (beyond env) m (CInt.add addr width) width)
        as [evs ok]. destruct ok; simpl; eexists; reflexivity.
    + simpl. eexists. reflexivity.
  - unfold device_access.
    replace (open_ret env <? 1) with false by (symmetry; apply Z.ltb_ge; lia).
    unfold write_word. destruct (deref_store (mmap_ret env) (beyond env) addr value); reflexivity.
  - unfold device_access.
    replace (open_ret env <? 1) with false by (symmetry; apply Z.ltb_ge; lia).
    split.
    + destruct (read_words (mmap_ret env) (beyond env) (Z.to_nat count) addr width) as [evs ok].
      destruct ok; simpl; auto.
    + unfold write_word.
      destruct (deref_store (mmap_ret env) (beyond env) addr value); simpl; auto.
Qed.

Lemma access_not_bounds_checked_witness :
  (exists rest,
      List.filter is_mapping_access
        (r_trace (device_access page_env MODE_READ "/dev/uio0" 1 4 16 0))
      = EvLoad 16 :: rest) /\
  List.filter is_mapping_access
    (r_trace (device_access page_env MODE_WRITE "/dev/uio0" 1 4 16 0))
    = [EvStore 16 0] /\
  List.filter is_error_report
    (r_trace (device_access page_env MODE_READ "/dev/uio0" 1 4 16 0)) = [] /\
  List.filter is_error_report
    (r_trace (device_access page_env MODE_WRITE "/dev/uio0" 1 4 16 0)) = [] /\
  (r_outcome (device_access page_env MODE_READ "/dev/uio0" 1 4 16 0)
     = Exited EXIT_SUCCESS \/
   r_outcome (device_access page_env MODE_READ "/dev/uio0" 1 4 16 0) = Faulted) /\
  (r_outcome (device_access page_env MODE_WRITE "/dev/uio0" 1 4 16 0)
     = Exited EXIT_SUCCESS \/
   r_outcome (device_access page_env MODE_WRITE "/dev/uio0" 1 4 16 0) = Faulted).
Proof.
  apply (access_not_bounds_checked page_env "/dev/uio0" 1 4 16 0).
  - simpl. lia.
  - lia.
Defined.

(** C6, as stated, fails: [uioctl /dev/uio0 0x10] maps 4 bytes, so
    [0x10 + 4 * 1] exceeds the mapped length; the word at 0x10 is
    loaded and printed all the same and the exit status is 0.  The
    same holds for the store of [uioctl /dev/uio0 0x10 7]. *)
Lemma read_beyond_mapped_length :
  CInt.mul 1 4 < 16 + 4 * 1 /\
  r_trace (main x86 page_env [] [arg_path "/dev/uio0"; arg_number "0x10" 16]) =
    [EvOpen "/dev/uio0" true 3; EvMmap 4 3 0 true; EvLoad 16;
     EvStdout (OutWord (word_line 16 0)); EvMunmap 4; EvClose 3] /\
  r_outcome (main x86 page_env [] [arg_path "/dev/uio0"; arg_number "0x10" 16])
    = Exited EXIT_SUCCESS /\
  r_trace (main x86 page_env []
             [arg_path "/dev/uio0"; arg_number "0x10" 16; arg_number "7" 7]) =
    [EvOpen "/dev/uio0" true 3; EvMmap 4 3 0 true; EvStore 16 7;
     EvMunmap 4; EvClose 3] /\
  r_outcome (main x86 page_env []
               [arg_path "/dev/uio0"; arg_number "0x10" 16; arg_number "7" 7])
    = Exited EXIT_SUCCESS.
Proof. vm_compute. repeat split; reflexivity. Qed.

(** ** A mapping that cannot be established *)

(** C7: the result of [mmap] is never tested.  With a device file that
    opens (descriptor 3) and an [mmap] that fails, [uioctl /dev/uio0 0]
    goes on to load through the failed mapping: nothing is reported,
    [close] is not called, and the run ends in the fault.  With
    [-n 0] no load is made and the run ends with [EXIT_SUCCESS]. *)
Theorem mmap_failure_unchecked :
  r_trace (main x86 unmappable_env [] [arg_path "/dev/uio0"; arg_number "0" 0]) =
    [EvOpen "/dev/uio0" true 3; EvMmap 4 3 0 false; EvLoad 0] /\
  r_outcome (main x86 unmappable_env [] [arg_path "/dev/uio0"; arg_number "0" 0])
    = Faulted /\
  r_trace (main x86 unmappable_env []
             [arg_path "/dev/uio0"; arg_number "0" 0; arg_number "7" 7]) =
    [EvOpen "/dev/uio0" true 3; EvMmap 4 3 0 false; EvStore 0 7] /\
  r_outcome (main x86 unmappable_env []
               [arg_path "/dev/uio0"; arg_number "0" 0; arg_number "7" 7])
    = Faulted /\
  r_trace (main x86 unmappable_env [OptN (numeric 0)]
             [arg_path "/dev/uio0"; arg_number "0" 0]) =
    [EvOpen "/dev/uio0" true 3; EvMmap 0 3 0 false; EvMunmap 0; EvClose 3] /\
  r_outcome (main x86 unmappable_env [OptN (numeric 0)]
               [arg_path "/dev/uio0"; arg_number "0" 0])
    = Exited EXIT_SUCCESS.
Proof. vm_compute. repeat split; reflexivity. Qed.

(** * Further properties of the code *)

(** ** The option loop as a whole *)

(** X1: the option loop ends at the first option that is [-h], [-l],
    unknown, has a numeric error or asks for an unsupported width or
    region.  Without such an option it runs to the end and prints
    nothing; at [-h] it prints the usage text and exits with
    [EXIT_SUCCESS]; at any other it exits with [EXIT_FAILURE] without
    touching a device. *)
Theorem getopt_loop_outcome opts s :
  match List.find stops_loop opts with
  | None => exists s', getopt_loop opts s = ([], inl s')
  | Some OptH => getopt_loop opts s = ([EvStdout OutUsage], inr EXIT_SUCCESS)
  | Some _ =>
      exists evs, getopt_loop opts s = (evs, inr EXIT_FAILURE) /\
                  List.filter touches_device evs = []
  end.
Proof.
  revert s. induction opts as [| o rest IH]; intros s.
  - simpl. eexists. reflexivity.
  - destruct o; cbn [List.find stops_loop getopt_loop usage list_devices];
      try apply IH; try reflexivity;
      try (eexists; split; reflexivity).
    + destruct (n_errno n); cbn [orb]; [eexists; split; reflexivity |].
      destruct (Z.eqb_spec (CInt.to_int (n_value n)) 0); cbn [negb];
        [apply IH | eexists; split; reflexivity].
    + destruct (n_errno n); [eexists; split; reflexivity | apply IH].
    + destruct (n_errno n); cbn [orb]; [eexists; split; reflexivity |].
      destruct (Z.eqb_spec (CInt.to_int (n_value n)) 4); cbn [negb];
        [apply IH | eexists; split; reflexivity].
Qed.

(** X2: when every option is accepted, the mode is [MODE_MONITOR]
    exactly if a [-m] or [-x] was given (and otherwise unchanged), the
    loop runs forever unless a [-x] was given, and the count is the one
    of the last [-n]. *)
Theorem getopt_loop_settings opts s evs s' :
  getopt_loop opts s = (evs, inl s') ->
  s_mode s' = (if existsb selects_monitor opts then MODE_MONITOR else s_mode s) /\
  s_forever s' = s_forever s && negb (existsb is_opt_x opts) /\
  s_count s' = last_count opts (s_count s).
Proof.
  revert s. induction opts as [| o rest IH]; intros s H.
  - simpl in H. inversion H; subst. simpl. rewrite andb_true_r. auto.
  - destruct o; cbn [getopt_loop usage list_devices] in H;
      try (simpl in H; discriminate H); getopt_step;
      apply IH in H; cbn [s_mode s_forever s_count] in H;
      destruct H as (Hm & Hf & Hc);
      cbn [existsb selects_monitor is_opt_x orb negb last_count fold_left];
      rewrite Hm, Hf; fold (last_count rest); repeat split;
      try (destruct (existsb selects_monitor rest); reflexivity);
      try exact Hc.
    rewrite andb_false_r. reflexivity.
Qed.

Lemma getopt_loop_settings_witness :
  s_mode {| s_mode := MODE_MONITOR; s_region := 0; s_count := 8;
            s_width := 4; s_forever := false |}
  = (if existsb selects_monitor [OptN (numeric 2); OptX; OptN (numeric 8)]
     then MODE_MONITOR else s_mode initial_settings) /\
  s_forever {| s_mode := MODE_MONITOR; s_region := 0; s_count := 8;
               s_width := 4; s_forever := false |}
  = s_forever initial_settings
    && negb (existsb is_opt_x [OptN (numeric 2); OptX; OptN (numeric 8)]) /\
  s_count {| s_mode := MODE_MONITOR; s_region := 0; s_count := 8;
             s_width := 4; s_forever := false |}
  = last_count [OptN (numeric 2); OptX; OptN (numeric 8)]
      (s_count initial_settings).
Proof.
  apply (getopt_loop_settings [OptN (numeric 2); OptX; OptN (numeric 8)]
           initial_settings []).
  reflexivity.
Defined.

(** X3: options are handled from left to right: the loop over
    [a ++ b] is the loop over [a] followed, if [a] was accepted, by the
    loop over [b] from the settings [a] left; an option of [a] that
    exits hides [b] altogether. *)
Theorem getopt_loop_app a b s :
  getopt_loop (a ++ b) s =
  match getopt_loop a s with
  | (_, inl s1) => getopt_loop b s1
  | (evs, inr status) => (evs, inr status)
  end.
Proof.
  revert s. induction a as [| o rest IH]; intros s; [reflexivity |].
  destruct o; cbn [app getopt_loop usage list_devices];
    try apply IH; try reflexivity; getopt_step; try reflexivity; apply IH.
Qed.

Lemma to_int_eq_small z c :
  0 <= c < 2147483648 -> (CInt.to_int z = c <-> z mod 4294967296 = c).
Proof.
  intros Hc. unfold CInt.to_int, CInt.to_uint.
  pose proof (Z.mod_pos_bound z 4294967296 ltac:(lia)) as Hr.
  destruct (Z.ltb_spec (z mod 4294967296) 2147483648); lia.
Qed.

(** X4: the width and the region are compared after [strtoul]'s
    result has been stored in an [int]: with [errno] clear, [-w v] is
    accepted exactly when [v] is 4 modulo 2^32, and [-r v] exactly when
    [v] is 0 modulo 2^32. *)
Theorem width_region_compared_as_int n rest s :
  n_errno n = false ->
  getopt_loop (OptW n :: rest) s =
    (if n_value n mod 4294967296 =? 4 then getopt_loop rest (with_width s 4)
     else ([EvStderr "width != 4 not yet implemented"], inr EXIT_FAILURE)) /\
  getopt_loop (OptR n :: rest) s =
    (if n_value n mod 4294967296 =? 0 then getopt_loop rest (with_region s 0)
     else ([EvStderr "region != 0 not yet implemented"], inr EXIT_FAILURE)).
Proof.
  intros Herr. cbn [getopt_loop]. rewrite Herr. split.
  - destruct (Z.eqb_spec (CInt.to_int (n_value n)) 4) as [H | H];
      destruct (Z.eqb_spec (n_value n mod 4294967296) 4) as [H' | H']; cbn [negb].
    + rewrite H. reflexivity.
    + apply to_int_eq_small in H; [contradiction | lia].
    + apply to_int_eq_small in H'; [contradiction | lia].
    + reflexivity.
  - destruct (Z.eqb_spec (CInt.to_int (n_value n)) 0) as [H | H];
      destruct (Z.eqb_spec (n_value n mod 4294967296) 0) as [H' | H']; cbn [negb].
    + rewrite H. reflexivity.
    + apply to_int_eq_small in H; [contradiction | lia].
    + apply to_int_eq_small in H'; [contradiction | lia].
    + reflexivity.
Qed.

Lemma width_region_compared_as_int_witness :
  getopt_loop [OptW (numeric 4294967300)] initial_settings
  = ([], inl initial_settings).
Proof.
  pose proof (width_region_compared_as_int (numeric 4294967300) []
                initial_settings eq_refl) as [H _].
  exact H.
Defined.

(** ** What the parts of a run can contain *)

Lemma getopt_loop_events (f : event -> bool) opts s :
  f (EvStdout OutUsage) = false ->
  (forall m, f (EvStderr m) = false) ->
  f EvPerror = false ->
  List.filter f (getopt_loop opts s).1 = [].
Proof.
  intros Hu He Hp. revert s. induction opts as [| o rest IH]; intros s;
    [reflexivity |].
  destruct o; cbn [getopt_loop usage list_devices]; try apply IH;
    getopt_step; try apply IH; simpl; rewrite ?Hu, ?He, ?Hp; reflexivity.
Qed.

Lemma read_words_events (f : event -> bool) ptr bey n addr width :
  (forall a, f (EvLoad a) = false) ->
  (forall l, f (EvStdout (OutWord l)) = false) ->
  List.filter f (read_words ptr bey n addr width).1 = [].
Proof.
  intros Hl Hw. revert addr. induction n as [| n IH]; intros addr; [reflexivity |].
  cbn [read_words]. destruct (deref_load ptr bey addr).
  - specialize (IH (CInt.add addr width)).
    destruct (read_words ptr bey n (CInt.add addr width) width) as [evs ok].
    simpl in *. rewrite Hl, Hw. exact IH.
  - simpl. rewrite Hl. reflexivity.
Qed.

Lemma monitor_loop_events (f : event -> bool) p fd forever rs :
  (forall a b c d e, f (EvPwrite a b c d e) = false) ->
  (forall a b c d, f (EvPread a b c d) = false) ->
  f EvFtime = false -> f EvPerror = false ->
  (forall m, f (EvStderr m) = false) ->
  (forall a b c, f (EvStdout (OutInterrupt a b c)) = false) ->
  (forall a, f (EvClose a) = false) ->
  List.filter f (monitor_loop p fd forever rs).1 = [].
Proof.
  intros Hw Hr Ht Hp He Ho Hc.
  induction rs as [| r rest IH]; [simpl; rewrite Hw; reflexivity |].
  cbn [monitor_loop]. unfold monitor_iteration.
  destruct (wr_ret r =? 4); cbn [negb].
  - destruct (rd_ret r =? 4); cbn [negb].
    + destruct forever.
      * destruct (monitor_loop p fd true rest) as [evs o]. simpl in *.
        rewrite Hw, Hr, Ht, Ho. exact IH.
      * simpl. rewrite Hw, Hr, Ht, Ho, Hc. reflexivity.
    + simpl. rewrite Hw, Hr, Ht, Hp, He. reflexivity.
  - simpl. rewrite Hw, Hp, He. reflexivity.
Qed.

Lemma monitor_events (f : event -> bool) p env fpath forever :
  (forall a, f (EvStdout (OutWaiting a)) = false) ->
  (forall a b c, f (EvOpen a b c) = false) ->
  (forall a b c d e, f (EvPwrite a b c d e) = false) ->
  (forall a b c d, f (EvPread a b c d) = false) ->
  f EvFtime = false -> f EvPerror = false ->
  (forall m, f (EvStderr m) = false) ->
  (forall a b c, f (EvStdout (OutInterrupt a b c)) = false) ->
  (forall a, f (EvClose a) = false) ->
  List.filter f (monitor p env fpath forever).1 = [].
Proof.
  intros Hq Hopen Hw Hr Ht Hp He Ho Hc. unfold monitor.
  destruct (open_ret env <? 1).
  - simpl. rewrite Hq, Hopen, Hp, He. reflexivity.
  - pose proof (monitor_loop_events f p (open_ret env) forever (replies env)
                  Hw Hr Ht Hp He Ho Hc) as H.
    destruct (monitor_loop p (open_ret env) forever (replies env)) as [evs o].
    simpl in *. rewrite Hq, Hopen. exact H.
Qed.

Lemma device_access_events (f : event -> bool) env mode fpath count width addr value :
  (forall a b c, f (EvOpen a b c) = false) ->
  (forall a b c d, f (EvMmap a b c d) = false) ->
  (forall a, f (EvLoad a) = false) ->
  (forall a b, f (EvStore a b) = false) ->
  (forall l, f (EvStdout (OutWord l)) = false) ->
  (forall a, f (EvMunmap a) = false) ->
  (forall a, f (EvClose a) = false) ->
  f EvPerror = false ->
  (forall m, f (EvStderr m) = false) ->
  List.filter f (r_trace (device_access env mode fpath count width addr value)) = [].
Proof.
  intros Hopen Hmap Hl Hs Hw Hu Hc Hp He. unfold device_access.
  destruct (open_ret env <? 1).
  - simpl. rewrite Hopen, Hp, He. reflexivity.
  - assert (Hread :
      List.filter f
        (r_trace
           (let '(evs, ok) := read_words (mmap_ret env) (beyond env) (Z.to_nat count) addr width in
            if ok then
              {| r_trace := [EvOpen fpath true (open_ret env);
                             EvMmap (CInt.mul count width) (open_ret env) 0
                               (bool_decide (is_Some (mmap_ret env)))]
                            ++ evs ++ [EvMunmap (CInt.mul count width);
                                       EvClose (open_ret env)];
                 r_outcome := Exited EXIT_SUCCESS; r_mem := mmap_ret env |}
            else
              {| r_trace := [EvOpen fpath true (open_ret env);
                             EvMmap (CInt.mul count width) (open_ret env) 0
                               (bool_decide (is_Some (mmap_ret env)))] ++ evs;
                 r_outcome := Faulted; r_mem := mmap_ret env |})) = []).
    { pose proof (read_words_events f (mmap_ret env) (beyond env) (Z.to_nat count) addr width
                    Hl Hw) as H.
      destruct (read_words (mmap_ret env) (beyond env) (Z.to_nat count) addr width) as [evs ok].
      simpl in H. destruct ok; simpl; rewrite Hopen, Hmap; [| exact H].
      rewrite List.filter_app, H. simpl. rewrite Hu, Hc. reflexivity. }
    destruct mode; try exact Hread;
      unfold write_word; destruct (deref_store (mmap_ret env) (beyond env) addr value);
      simpl; rewrite Hopen, Hmap, Hs, ?Hu, ?Hc; reflexivity.
Qed.

(** ** The two kinds of run *)

(** X5: no run of [main] both uses the device file's [pread]/[pwrite]
    interface and maps, loads from, stores to or unmaps device memory:
    the monitor never touches a mapping and register access never
    reads or writes the file descriptor. *)
Theorem monitor_and_mapping_exclusive p env opts args :
  List.filter is_device_io (r_trace (main p env opts args)) = [] \/
  List.filter uses_mapping (r_trace (main p env opts args)) = [].
Proof.
  unfold main.
  pose proof (getopt_loop_events is_device_io opts initial_settings
                eq_refl (fun _ => eq_refl) eq_refl) as Hq.
  destruct (getopt_loop opts initial_settings) as [evs [s | status]] eqn:Hopts;
    [| left; exact Hq].
  destruct (getopt_loop_accept _ _ _ _ Hopts) as [-> _].
  assert (Hdev : forall m f c w a v,
             List.filter is_device_io
               (r_trace (device_access env m f c w a v)) = []).
  { intros. apply device_access_events; intros; reflexivity. }
  destruct (s_mode s).
  - left. destruct args as [| f [| a [| v [| x rest]]]]; try reflexivity.
    + destruct (n_errno (a_number a)); [reflexivity | apply Hdev].
    + destruct (n_errno (a_number a) || n_errno (a_number v));
        [reflexivity | apply Hdev].
  - left. apply Hdev.
  - left. apply Hdev.
  - right. destruct args as [| a [| b rest]]; try reflexivity.
    pose proof (monitor_events uses_mapping p env (a_text a) (s_forever s)) as H.
    destruct (monitor p env (a_text a) (s_forever s)) as [evs o].
    apply H; intros; reflexivity.
Qed.



(** ** Arguments after the options *)

(** X7: with every option accepted, monitor mode given other than one
    argument, and register mode given other than two or three, print
    the wrong-number message and exit with [EXIT_FAILURE] without
    touching a device. *)
Theorem wrong_argument_count p env opts evs s args :
  getopt_loop opts initial_settings = (evs, inl s) ->
  match s_mode s with
  | MODE_MONITOR => length args <> 1%nat
  | _ => length args <> 2%nat /\ length args <> 3%nat
  end ->
  r_trace (main p env opts args) = wrong_number /\
  r_outcome (main p env opts args) = Exited EXIT_FAILURE.
Proof.
  intros Hopts Hargs. unfold main. rewrite Hopts.
  destruct (getopt_loop_accept _ _ _ _ Hopts) as [-> _].
  destruct (getopt_loop_mode _ _ _ Hopts) as [Hm | Hm]; rewrite Hm in *.
  - destruct Hargs as [H2 H3].
    destruct args as [| f [| a [| v [| x rest]]]]; simpl in *;
      try lia; split; reflexivity.
  - destruct args as [| a [| b rest]]; simpl in *; try lia; split; reflexivity.
Qed.

Lemma wrong_argument_count_witness :
  r_trace (main x86 page_env [OptM] []) = wrong_number /\
  r_outcome (main x86 page_env [OptM] []) = Exited EXIT_FAILURE.
Proof.
  apply (wrong_argument_count x86 page_env [OptM] []
           {| s_mode := MODE_MONITOR; s_region := 0; s_count := 1;
              s_width := 4; s_forever := true |} []).
  - reflexivity.
  - simpl. lia.
Defined.

(** X8: in register mode a numeric argument on which [strtoul] set
    [errno] (the address, or for a write the address or the value) ends
    the run with [perror] and [EXIT_FAILURE] before the device file is
    opened. *)
Theorem numeric_argument_error p env opts evs s f rest :
  getopt_loop opts initial_settings = (evs, inl s) ->
  s_mode s = MODE_READ ->
  (length rest = 1%nat \/ length rest = 2%nat) ->
  existsb arg_errno rest = true ->
  r_trace (main p env opts (f :: rest)) = [EvPerror] /\
  r_outcome (main p env opts (f :: rest)) = Exited EXIT_FAILURE.
Proof.
  intros Hopts Hm Hlen Herr. unfold main. rewrite Hopts, Hm.
  destruct (getopt_loop_accept _ _ _ _ Hopts) as [-> _].
  destruct rest as [| a [| v [| x rest]]]; simpl in Hlen; try lia.
  - cbn [existsb arg_errno orb] in Herr. rewrite orb_false_r in Herr.
    unfold arg_errno in Herr. rewrite Herr. split; reflexivity.
  - cbn [existsb orb] in Herr. rewrite orb_false_r in Herr.
    unfold arg_errno in Herr. rewrite Herr. split; reflexivity.
Qed.

Lemma numeric_argument_error_witness :
  r_trace (main x86 page_env []
             [arg_path "/dev/uio0"; arg_number "0" 0;
              {| a_text := "99999999999999999999";
                 a_number := {| n_value := 18446744073709551615;
                                n_errno := true |} |}]) = [EvPerror] /\
  r_outcome (main x86 page_env []
               [arg_path "/dev/uio0"; arg_number "0" 0;
                {| a_text := "99999999999999999999";
                   a_number := {| n_value := 18446744073709551615;
                                  n_errno := true |} |}])
    = Exited EXIT_FAILURE.
Proof.
  apply (numeric_argument_error x86 page_env [] [] initial_settings).
  - reflexivity.
  - reflexivity.
  - right. reflexivity.
  - reflexivity.
Defined.

(** X9: when [open] returns less than 1 (an error, or descriptor 0),
    every run whose options were accepted ends with [EXIT_FAILURE]; it
    makes no call on the device beyond that [open] (no map, load,
    store, read, write, unmap or close) and leaves the device memory
    alone. *)
Theorem open_failure_is_fatal p env opts evs s args :
  getopt_loop opts initial_settings = (evs, inl s) ->
  open_ret env < 1 ->
  r_outcome (main p env opts args) = Exited EXIT_FAILURE /\
  List.filter after_open (r_trace (main p env opts args)) = [] /\
  r_mem (main p env opts args) = mmap_ret env.
Proof.
  intros Hopts Hfd. unfold main. rewrite Hopts.
  destruct (getopt_loop_accept _ _ _ _ Hopts) as [-> _].
  assert (Hlt : (open_ret env <? 1) = true) by (apply Z.ltb_lt; exact Hfd).
  destruct (getopt_loop_mode _ _ _ Hopts) as [Hm | Hm]; rewrite Hm.
  - destruct args as [| f [| a [| v [| x rest]]]];
      try (repeat split; reflexivity).
    + destruct (n_errno (a_number a)); [repeat split; reflexivity |].
      unfold device_access. rewrite Hlt. repeat split; reflexivity.
    + destruct (n_errno (a_number a) || n_errno (a_number v));
        [repeat split; reflexivity |].
      unfold device_access. rewrite Hlt. repeat split; reflexivity.
  - destruct args as [| a [| b rest]]; try (repeat split; reflexivity).
    unfold monitor. rewrite Hlt. repeat split; reflexivity.
Qed.

Lemma open_failure_is_fatal_witness :
  r_outcome (main x86 {| open_ret := 0; mmap_ret := Some (replicate 4096 0);
                         replies := [reply_2];
     beyond := nothing_beyond |}
               [OptX] [arg_path "/dev/uio0"]) = Exited EXIT_FAILURE /\
  List.filter after_open
    (r_trace (main x86 {| open_ret := 0; mmap_ret := Some (replicate 4096 0);
                          replies := [reply_2];
     beyond := nothing_beyond |}
                [OptX] [arg_path "/dev/uio0"])) = [] /\
  r_mem (main x86 {| open_ret := 0; mmap_ret := Some (replicate 4096 0);
                     replies := [reply_2];
     beyond := nothing_beyond |}
           [OptX] [arg_path "/dev/uio0"]) = Some (replicate 4096 0).
Proof.
  apply (open_failure_is_fatal x86
           {| open_ret := 0; mmap_ret := Some (replicate 4096 0);
              replies := [reply_2];
     beyond := nothing_beyond |}
           [OptX] []
           {| s_mode := MODE_MONITOR; s_region := 0; s_count := 1;
              s_width := 4; s_forever := false |}).
  - reflexivity.
  - simpl. lia.
Defined.

(** X10: a write run on a device file that opens prints nothing on
    standard output, makes no load, and issues exactly one store, of
    the value and at the address as converted to [int]. *)
Theorem write_run_is_one_store p env opts evs s f a v :
  getopt_loop opts initial_settings = (evs, inl s) ->
  s_mode s = MODE_READ ->
  arg_errno a = false ->
  arg_errno v = false ->
  1 <= open_ret env ->
  List.filter is_stdout (r_trace (main p env opts [f; a; v])) = [] /\
  List.filter is_mapping_access (r_trace (main p env opts [f; a; v])) =
    [EvStore (CInt.to_int (n_value (a_number a)))
             (CInt.to_int (n_value (a_number v)))].
Proof.
  intros Hopts Hm Ha Hv Hfd. unfold main. rewrite Hopts, Hm.
  destruct (getopt_loop_accept _ _ _ _ Hopts) as [-> _].
  unfold arg_errno in Ha, Hv. rewrite Ha, Hv. cbn [orb r_trace app].
  unfold device_access.
  replace (open_ret env <? 1) with false by (symmetry; apply Z.ltb_ge; lia).
  unfold write_word.
  destruct (deref_store (mmap_ret env) (beyond env) (CInt.to_int (n_value (a_number a)))
              (CInt.to_int (n_value (a_number v)))); split; reflexivity.
Qed.

Lemma write_run_is_one_store_witness :
  List.filter is_stdout
    (r_trace (main x86 page_env []
                [arg_path "/dev/uio0"; arg_number "8" 8;
                 arg_number "0xffffffff" 4294967295])) = [] /\
  List.filter is_mapping_access
    (r_trace (main x86 page_env []
                [arg_path "/dev/uio0"; arg_number "8" 8;
                 arg_number "0xffffffff" 4294967295])) =
    [EvStore (CInt.to_int 8) (CInt.to_int 4294967295)].
Proof.
  apply (write_run_is_one_store x86 page_env [] [] initial_settings).
  - reflexivity.
  - reflexivity.
  - reflexivity.
  - reflexivity.
  - simpl. lia.
Defined.

(** X11: a count that is zero or negative once stored in the [int]
    (as [-n 4294967295] is) makes the read loop run no pass at all: no
    line, no load, and [EXIT_SUCCESS] after unmapping and closing. *)
Theorem read_nonpositive_count p env opts evs s f a :
  getopt_loop opts initial_settings = (evs, inl s) ->
  s_mode s = MODE_READ ->
  s_count s <= 0 ->
  arg_errno a = false ->
  1 <= open_ret env ->
  r_trace (main p env opts [f; a]) =
    [EvOpen (a_text f) true (open_ret env);
     EvMmap (CInt.mul (s_count s) (s_width s)) (open_ret env) 0
       (bool_decide (is_Some (mmap_ret env)));
     EvMunmap (CInt.mul (s_count s) (s_width s)); EvClose (open_ret env)] /\
  r_outcome (main p env opts [f; a]) = Exited EXIT_SUCCESS.
Proof.
  intros Hopts Hm Hcount Ha Hfd. unfold main. rewrite Hopts, Hm.
  destruct (getopt_loop_accept _ _ _ _ Hopts) as [-> _].
  unfold arg_errno in Ha. rewrite Ha. unfold device_access.
  replace (open_ret env <? 1) with false by (symmetry; apply Z.ltb_ge; lia).
  replace (Z.to_nat (s_count s)) with 0%nat by lia.
  split; reflexivity.
Qed.

Lemma read_nonpositive_count_witness :
  r_trace (main x86 unmappable_env [OptN (numeric 4294967295)]
             [arg_path "/dev/uio0"; arg_number "0" 0]) =
    [EvOpen "/dev/uio0" true 3; EvMmap (-4) 3 0 false; EvMunmap (-4); EvClose 3] /\
  r_outcome (main x86 unmappable_env [OptN (numeric 4294967295)]
               [arg_path "/dev/uio0"; arg_number "0" 0]) = Exited EXIT_SUCCESS.
Proof.
  apply (read_nonpositive_count x86 unmappable_env [OptN (numeric 4294967295)] []
           {| s_mode := MODE_READ; s_region := 0; s_count := -1;
              s_width := 4; s_forever := true |}
           (arg_path "/dev/uio0") (arg_number "0" 0)).
  - reflexivity.
  - reflexivity.
  - simpl. lia.
  - reflexivity.
  - simpl. lia.
Defined.

(** ** The monitor in run-forever mode *)

Lemma monitor_loop_forever_outcome p fd rs :
  (monitor_loop p fd true rs).2 = Blocked \/
  (monitor_loop p fd true rs).2 = Exited EXIT_FAILURE.
Proof.
  induction rs as [| r rest IH]; [left; reflexivity |].
  cbn [monitor_loop]. unfold monitor_iteration.
  destruct (wr_ret r =? 4); cbn [negb]; [| right; reflexivity].
  destruct (rd_ret r =? 4); cbn [negb]; [| right; reflexivity].
  destruct (monitor_loop p fd true rest) as [evs o]. exact IH.
Qed.

Lemma monitor_loop_forever_no_close p fd rs :
  List.filter is_close_call (monitor_loop p fd true rs).1 = [].
Proof.
  induction rs as [| r rest IH]; [reflexivity |].
  cbn [monitor_loop]. unfold monitor_iteration.
  destruct (wr_ret r =? 4); cbn [negb]; [| reflexivity].
  destruct (rd_ret r =? 4); cbn [negb]; [| reflexivity].
  destruct (monitor_loop p fd true rest) as [evs o]. exact IH.
Qed.

(** X12: without [-x] the monitor never ends with [EXIT_SUCCESS] and
    never calls [close]: whatever the device answers, it is still
    waiting or has exited with [EXIT_FAILURE] (failed open or short
    transfer), leaving the descriptor to the operating system. *)
Theorem monitor_forever_never_succeeds p env fpath :
  ((monitor p env fpath true).2 = Blocked \/
   (monitor p env fpath true).2 = Exited EXIT_FAILURE) /\
  List.filter is_close_call (monitor p env fpath true).1 = [].
Proof.
  unfold monitor. destruct (open_ret env <? 1).
  - split; [right |]; reflexivity.
  - pose proof (monitor_loop_forever_outcome p (open_ret env) (replies env)) as Ho.
    pose proof (monitor_loop_forever_no_close p (open_ret env) (replies env)) as Hc.
    destruct (monitor_loop p (open_ret env) true (replies env)) as [evs o].
    split; [exact Ho | exact Hc].
Qed.

Lemma monitor_loop_all_full p fd rs :
  Forall full_transfer rs ->
  monitor_loop p fd true rs =
    (flat_map (full_pass p fd) rs ++ [EvPwrite fd startval 4 0 4], Blocked).
Proof.
  induction 1 as [| r rest [Hw Hr] Hrest IH]; [reflexivity |].
  cbn [monitor_loop flat_map]. unfold monitor_iteration.
  rewrite Hw, Hr, IH. reflexivity.
Qed.

Lemma interrupt_lines_of_passes p fd rs :
  List.filter is_interrupt_output (flat_map (full_pass p fd) rs) =
  map (interrupt_line p) rs.
Proof.
  induction rs as [| r rest IH]; [reflexivity |].
  cbn [flat_map map]. rewrite List.filter_app, IH. reflexivity.
Qed.

(** X13: without [-x], on a device file that opens and completes
    every transfer, the monitor goes through one pass per interrupt
    delivered (write, read, time stamp, line), then issues the next
    acknowledge write and sits in the blocking read; the lines it has
    printed are, in order, one per interrupt delivered, each with that
    interrupt's time stamp and decoded counter. *)
Theorem monitor_forever_reports_each p env fpath :
  1 <= open_ret env ->
  Forall full_transfer (replies env) ->
  monitor p env fpath true =
    (EvStdout (OutWaiting fpath) :: EvOpen fpath false (open_ret env)
     :: flat_map (full_pass p (open_ret env)) (replies env)
        ++ [EvPwrite (open_ret env) [0; 0; 0; 1] 4 0 4], Blocked) /\
  List.filter is_interrupt_output (monitor p env fpath true).1 =
    map (interrupt_line p) (replies env).
Proof.
  intros Hfd Hfull. unfold monitor.
  replace (open_ret env <? 1) with false by (symmetry; apply Z.ltb_ge; lia).
  rewrite (monitor_loop_all_full p (open_ret env) (replies env) Hfull).
  split; [reflexivity |].
  cbn [fst app List.filter is_interrupt_output].
  rewrite List.filter_app, interrupt_lines_of_passes. apply app_nil_r.
Qed.

Lemma monitor_forever_reports_each_witness :
  monitor x86 two_interrupts_env "/dev/uio0" true =
    (EvStdout (OutWaiting "/dev/uio0") :: EvOpen "/dev/uio0" false 3
     :: flat_map (full_pass x86 3) [reply_2; reply_3]
        ++ [EvPwrite 3 [0; 0; 0; 1] 4 0 4], Blocked) /\
  List.filter is_interrupt_output (monitor x86 two_interrupts_env "/dev/uio0" true).1 =
    map (interrupt_line x86) [reply_2; reply_3].
Proof.
  apply (monitor_forever_reports_each x86 two_interrupts_env "/dev/uio0").
  - simpl. lia.
  - repeat constructor.
Defined.

(** ** Releasing the mapping and the descriptor *)

(** X14: once the device file is open, a register run that ends with
    an exit status has, as its last two calls, [munmap] with the very
    length given to [mmap] and then [close] of the descriptor [open]
    returned, and no other unmap or close; a run that ends in a fault
    has unmapped and closed nothing. *)
Theorem cleanup_unmap_then_close env mode fpath count width addr value :
  1 <= open_ret env ->
  match r_outcome (device_access env mode fpath count width addr value) with
  | Exited _ =>
      exists mid,
        r_trace (device_access env mode fpath count width addr value) =
          EvOpen fpath true (open_ret env)
          :: EvMmap (CInt.mul count width) (open_ret env) 0
               (bool_decide (is_Some (mmap_ret env)))
          :: mid ++ [EvMunmap (CInt.mul count width); EvClose (open_ret env)] /\
        List.filter is_cleanup mid = []
  | _ =>
      List.filter is_cleanup
        (r_trace (device_access env mode fpath count width addr value)) = []
  end.
Proof.
  intros Hfd. unfold device_access.
  replace (open_ret env <? 1) with false by (symmetry; apply Z.ltb_ge; lia).
  pose proof (read_words_events is_cleanup (mmap_ret env) (beyond env) (Z.to_nat count)
                addr width (fun _ => eq_refl) (fun _ => eq_refl)) as H.
  destruct mode.
  - destruct (read_words (mmap_ret env) (beyond env) (Z.to_nat count) addr width) as [evs ok].
    simpl in H. destruct ok; simpl; [| exact H].
    exists evs. split; [reflexivity | exact H].
  - unfold write_word. destruct (deref_store (mmap_ret env) (beyond env) addr value); simpl;
      [exists [EvStore addr value]; split; reflexivity | reflexivity].
  - unfold write_word. destruct (deref_store (mmap_ret env) (beyond env) addr value); simpl;
      [exists [EvStore addr value]; split; reflexivity | reflexivity].
  - unfold write_word. destruct (deref_store (mmap_ret env) (beyond env) addr value); simpl;
      [exists [EvStore addr value]; split; reflexivity | reflexivity].
Qed.

Lemma cleanup_unmap_then_close_witness :
  exists mid,
    r_trace (device_access page_env MODE_READ "/dev/uio0" 2 4 0 0) =
      EvOpen "/dev/uio0" true 3 :: EvMmap 8 3 0 true
      :: mid ++ [EvMunmap 8; EvClose 3] /\
    List.filter is_cleanup mid = [].
Proof.
  exact (cleanup_unmap_then_close page_env MODE_READ "/dev/uio0" 2 4 0 0
           ltac:(simpl; lia)).
Defined.

(** ** The bytes of a word in the mapping *)

Lemma store32_layout (mem mem' : list Z) addr v :
  store32 mem addr v = Some mem' ->
  mem' = take (Z.to_nat addr) mem ++ le_bytes v ++ drop (Z.to_nat addr + 4) mem.
Proof.
  unfold store32. destruct (addr <? 0); [discriminate |].
  destruct (Nat.leb_spec (Z.to_nat addr + 4) (length mem)) as [Hlen | Hlen];
    [| discriminate].
  intros H. inversion H; subst mem'; clear H.
  set (a := Z.to_nat addr) in *.
  rewrite <- (take_drop a mem) at 1.
  assert (Hta : length (take a mem) = a) by (rewrite length_take; lia).
  destruct (drop a mem) as [| x0 [| x1 [| x2 [| x3 post]]]] eqn:Hd;
    try (apply (f_equal length) in Hd; rewrite length_drop in Hd; simpl in Hd; lia).
  assert (Hpost : drop (a + 4) mem = post).
  { rewrite <- drop_drop, Hd. reflexivity. }
  rewrite Hpost.
  rewrite (insert_app_r_alt _ _ a) by lia.
  rewrite (insert_app_r_alt _ _ (a + 1)) by lia.
  rewrite (insert_app_r_alt _ _ (a + 2)) by lia.
  rewrite (insert_app_r_alt _ _ (a + 3)) by lia.
  rewrite Hta.
  replace (a - a)%nat with 0%nat by lia.
  replace (a + 1 - a)%nat with 1%nat by lia.
  replace (a + 2 - a)%nat with 2%nat by lia.
  replace (a + 3 - a)%nat with 3%nat by lia.
  reflexivity.
Qed.

(** X15: a write run inside the mapped pages replaces exactly the four
    bytes at [addr .. addr + 3] by the value's low 32 bits, least
    significant byte first; every byte before and after them is as it
    was, and the mapping keeps its length. *)
Theorem write_run_layout p env (mem : list Z) f addr v :
  1 <= open_ret env ->
  mmap_ret env = Some mem ->
  0 <= addr ->
  addr + 4 <= Z.of_nat (length mem) ->
  addr + 4 <= 2147483648 ->
  r_mem (write_run p env f addr v) =
    Some (take (Z.to_nat addr) mem ++ le_bytes (CInt.to_uint v)
          ++ drop (Z.to_nat addr + 4) mem) /\
  length (take (Z.to_nat addr) mem ++ le_bytes (CInt.to_uint v)
          ++ drop (Z.to_nat addr + 4) mem) = length mem.
Proof.
  intros Hfd Hmap H0 Hlen Hint.
  destruct (store32_in_range mem addr (CInt.to_uint v) H0 Hlen) as [mem' Hst].
  pose proof (store32_layout mem mem' addr (CInt.to_uint v) Hst) as Hlay.
  split.
  - unfold write_run, main. cbn [getopt_loop initial_settings s_mode s_count
      s_width arg_number arg_path a_number a_text numeric n_errno n_value orb].
    unfold device_access.
    replace (open_ret env <? 1) with false by (symmetry; apply Z.ltb_ge; lia).
    rewrite Hmap. unfold write_word.
    rewrite (to_int_small addr) by lia.
    rewrite deref_store_in_range by lia.
    rewrite to_uint_to_int, Hst. cbn [r_mem]. rewrite Hlay. reflexivity.
  - rewrite !length_app, length_take, length_drop. simpl. lia.
Qed.

Lemma write_run_layout_witness :
  r_mem (write_run x86 page_env "/dev/uio0" 4 3735928559) =
    Some (take (Z.to_nat 4) (replicate 4096 0)
          ++ le_bytes (CInt.to_uint 3735928559)
          ++ drop (Z.to_nat 4 + 4) (replicate 4096 0)) /\
  length (take (Z.to_nat 4) (replicate 4096 0)
          ++ le_bytes (CInt.to_uint 3735928559)
          ++ drop (Z.to_nat 4 + 4) (replicate 4096 0))
  = length (replicate 4096 0).
Proof.
  apply (write_run_layout x86 page_env (replicate 4096 0) "/dev/uio0" 4 3735928559).
  - simpl. lia.
  - reflexivity.
  - lia.
  - rewrite length_replicate. lia.
  - lia.
Defined.

Example le_bytes_deadbeef : le_bytes 3735928559 = [239; 190; 173; 222].
Proof. reflexivity. Qed.

Lemma load32_store32_other (mem mem' : list Z) addr v addr2 :
  store32 mem addr v = Some mem' ->
  0 <= addr2 ->
  addr2 + 4 <= addr \/ addr + 4 <= addr2 ->
  load32 mem' addr2 = load32 mem addr2.
Proof.
  unfold store32, load32. intros H H2 Hdis.
  destruct (Z.ltb_spec addr 0) as [Hneg | Hpos]; [discriminate |].
  destruct (Z.to_nat addr + 4 <=? length mem)%nat; [| discriminate].
  inversion H; subst mem'; clear H.
  destruct (Z.ltb_spec addr2 0) as [Hneg2 | Hpos2]; [lia |].
  rewrite !list_lookup_insert_ne by lia. reflexivity.
Qed.

(** X16: a write run changes no other word: a word that does not
    overlap the four bytes written is loaded after the run exactly as
    before it. *)
Theorem write_run_other_words p env (mem : list Z) f addr v addr2 :
  1 <= open_ret env ->
  mmap_ret env = Some mem ->
  0 <= addr ->
  addr + 4 <= Z.of_nat (length mem) ->
  addr + 4 <= 2147483648 ->
  0 <= addr2 ->
  addr2 + 4 <= addr \/ addr + 4 <= addr2 ->
  exists mem',
    r_mem (write_run p env f addr v) = Some mem' /\
    load32 mem' addr2 = load32 mem addr2.
Proof.
  intros Hfd Hmap H0 Hlen Hint H2 Hdis.
  destruct (store32_in_range mem addr (CInt.to_uint v) H0 Hlen) as [mem' Hst].
  exists mem'. split.
  - unfold write_run, main. cbn [getopt_loop initial_settings s_mode s_count
      s_width arg_number arg_path a_number a_text numeric n_errno n_value orb].
    unfold device_access.
    replace (open_ret env <? 1) with false by (symmetry; apply Z.ltb_ge; lia).
    rewrite Hmap. unfold write_word.
    rewrite (to_int_small addr) by lia.
    rewrite deref_store_in_range by lia.
    rewrite to_uint_to_int, Hst. reflexivity.
  - apply (load32_store32_other mem mem' addr (CInt.to_uint v) addr2 Hst H2 Hdis).
Qed.

Lemma write_run_other_words_witness :
  exists mem',
    r_mem (write_run x86 page_env "/dev/uio0" 4 3735928559) = Some mem' /\
    load32 mem' 8 = load32 (replicate 4096 0) 8.
Proof.
  apply (write_run_other_words x86 page_env (replicate 4096 0) "/dev/uio0"
           4 3735928559 8).
  - simpl. lia.
  - reflexivity.
  - lia.
  - rewrite length_replicate. lia.
  - lia.
  - lia.
  - right. lia.
Defined.

(** ** A read that runs off the mapped pages *)

Lemma byte_at_past_end (mem : list Z) bey :
  byte_at (Some mem) bey (Z.of_nat (length mem)) = bey (Z.of_nat (length mem)).
Proof.
  unfold byte_at.
  replace (Z.of_nat (length mem) <? Z.of_nat (length mem)) with false
    by (symmetry; apply Z.ltb_ge; lia).
  rewrite andb_false_r. reflexivity.
Qed.

(** A word that reaches the first byte past the mapping cannot be
    loaded when the process has nothing mapped there. *)
Lemma deref_load_unmapped (mem : list Z) bey addr :
  bey (Z.of_nat (length mem)) = None ->
  addr <= Z.of_nat (length mem) < addr + 4 ->
  deref_load (Some mem) bey addr = None.
Proof.
  intros Hbey Hin. pose proof (byte_at_past_end mem bey) as Hb.
  rewrite Hbey in Hb. unfold deref_load.
  assert (Hc : Z.of_nat (length mem) = addr \/ Z.of_nat (length mem) = addr + 1 \/
               Z.of_nat (length mem) = addr + 2 \/ Z.of_nat (length mem) = addr + 3)
    by lia.
  destruct Hc as [Hc | [Hc | [Hc | Hc]]]; rewrite <- Hc, Hb;
    repeat match goal with
      | |- context [match byte_at ?a ?b ?c with _ => _ end] =>
          destruct (byte_at a b c)
      end; reflexivity.
Qed.

Lemma passes_events (f : event -> bool) (mem : list Z) start l :
  (forall a, f (EvLoad a) = false) ->
  (forall w, f (EvStdout (OutWord w)) = false) ->
  List.filter f (flat_map (read_pass mem start) l) = [].
Proof.
  intros Hl Hw. induction l as [| i l IH]; [reflexivity |].
  cbn [flat_map]. rewrite List.filter_app, IH. unfold read_pass. simpl.
  rewrite Hl, Hw. reflexivity.
Qed.

Lemma read_words_partial (mem : list Z) bey start k :
  bey (Z.of_nat (length mem)) = None ->
  forall n j,
    0 <= start ->
    (k < n)%nat ->
    start + 4 * Z.of_nat (j + k) <= Z.of_nat (length mem) ->
    Z.of_nat (length mem) < start + 4 * Z.of_nat (j + k) + 4 ->
    start + 4 * Z.of_nat (j + k) + 4 <= 2147483648 ->
    read_words (Some mem) bey n (start + 4 * Z.of_nat j) 4 =
    (flat_map (read_pass mem start) (seq j k)
     ++ [EvLoad (start + 4 * Z.of_nat (j + k))], false).
Proof.
  intros Hbey.
  induction k as [| k IH]; intros n j H0 Hkn Hin Hout Hint;
    (destruct n as [| n]; [lia |]); cbn [read_words seq flat_map].
  - replace (j + 0)%nat with j in * by lia.
    rewrite (deref_load_unmapped mem bey) by (try exact Hbey; lia). reflexivity.
  - rewrite deref_load_in_range by lia.
    destruct (load32_in_range mem (start + 4 * Z.of_nat j)) as [v Hv]; [lia | lia |].
    rewrite Hv. unfold CInt.add.
    rewrite (to_int_small (start + 4 * Z.of_nat j + 4)) by lia.
    replace (start + 4 * Z.of_nat j + 4) with (start + 4 * Z.of_nat (S j)) by lia.
    rewrite (IH n (S j)) by
      (try exact H0; try lia; replace (S j + k)%nat with (j + S k)%nat by lia;
       assumption).
    replace (S j + k)%nat with (j + S k)%nat by lia.
    unfold read_pass at 2, word_at. rewrite Hv. reflexivity.
Qed.

(** X17: a read of [n] words of which only the first [k < n] lie
    inside the mapped pages, in a process that has nothing mapped right
    after them, prints those [k] lines, in order, and then ends in the
    fault of the load of word [k]: the lines stay printed, nothing is
    reported, and neither [munmap] nor [close] is called. *)
Theorem read_run_faults_midway p env (mem : list Z) f n k start :
  1 <= open_ret env ->
  mmap_ret env = Some mem ->
  beyond env (Z.of_nat (length mem)) = None ->
  (k < n)%nat ->
  Z.of_nat n <= 2147483647 ->
  0 <= start ->
  start + 4 * Z.of_nat k <= Z.of_nat (length mem) ->
  Z.of_nat (length mem) < start + 4 * Z.of_nat k + 4 ->
  start + 4 * Z.of_nat k + 4 <= 2147483648 ->
  r_outcome (read_run p env f n start) = Faulted /\
  List.filter is_word_output (r_trace (read_run p env f n start)) =
    map (word_event mem start) (seq 0 k) /\
  List.filter is_mapping_access (r_trace (read_run p env f n start)) =
    map (fun i => EvLoad (start + 4 * Z.of_nat i)) (seq 0 (S k)) /\
  List.filter is_cleanup (r_trace (read_run p env f n start)) = [] /\
  List.filter is_error_report (r_trace (read_run p env f n start)) = [].
Proof.
  intros Hfd Hmap Hbey Hkn Hn H0 Hin Hout Hint.
  pose proof (read_words_partial mem (beyond env) start k Hbey n 0%nat H0 Hkn) as Hrw.
  replace (start + 4 * Z.of_nat 0) with start in Hrw by lia.
  cbn [Nat.add] in Hrw. specialize (Hrw Hin Hout Hint).
  unfold read_run, main. cbn [getopt_loop numeric n_errno n_value initial_settings
    s_mode s_count s_width arg_number arg_path a_number a_text].
  unfold DEFAULT_WIDTH. rewrite !to_int_small by lia.
  unfold device_access.
  replace (open_ret env <? 1) with false by (symmetry; apply Z.ltb_ge; lia).
  rewrite Hmap, Nat2Z.id, Hrw. cbn [r_outcome r_trace app].
  split; [reflexivity |].
  split.
  { cbn [List.filter is_word_output].
    rewrite List.filter_app, word_outputs_of_passes. apply app_nil_r. }
  split.
  { cbn [List.filter is_mapping_access].
    rewrite List.filter_app, mapping_accesses_of_passes.
    rewrite seq_S, map_app. reflexivity. }
  split.
  - cbn [List.filter is_cleanup]. rewrite List.filter_app.
    rewrite (passes_events is_cleanup) by (intros; reflexivity). reflexivity.
  - cbn [List.filter is_error_report]. rewrite List.filter_app.
    rewrite (passes_events is_error_report) by (intros; reflexivity). reflexivity.
Qed.

Lemma read_run_faults_midway_witness :
  r_outcome (read_run x86 page_env "/dev/uio0" 4 4088) = Faulted /\
  List.filter is_word_output (r_trace (read_run x86 page_env "/dev/uio0" 4 4088)) =
    map (word_event (replicate 4096 0) 4088) (seq 0 2) /\
  List.filter is_mapping_access (r_trace (read_run x86 page_env "/dev/uio0" 4 4088)) =
    map (fun i => EvLoad (4088 + 4 * Z.of_nat i)) (seq 0 3) /\
  List.filter is_cleanup (r_trace (read_run x86 page_env "/dev/uio0" 4 4088)) = [] /\
  List.filter is_error_report (r_trace (read_run x86 page_env "/dev/uio0" 4 4088)) = [].
Proof.
  apply (read_run_faults_midway x86 page_env (replicate 4096 0) "/dev/uio0" 4 2 4088).
  - simpl. lia.
  - reflexivity.
  - reflexivity.
  - lia.
  - lia.
  - lia.
  - rewrite length_replicate. lia.
  - rewrite length_replicate. lia.
  - lia.
Defined.

(** ** The value of the printed counter *)

Lemma to_int_congr a b :
  a mod 4294967296 = b mod 4294967296 -> CInt.to_int a = CInt.to_int b.
Proof. intros H. unfold CInt.to_int, CInt.to_uint. rewrite H. reflexivity. Qed.

Lemma to_int_decomp x : exists q, CInt.to_int x = x + q * 4294967296.
Proof.
  unfold CInt.to_int, CInt.to_uint.
  pose proof (Z.div_mod x 4294967296 ltac:(lia)) as H.
  destruct (x mod 4294967296 <? 2147483648).
  - exists (- (x / 4294967296)). lia.
  - exists (- (x / 4294967296) - 1). lia.
Qed.

Lemma mod_eq_of_diff e t k :
  e = t + k * 4294967296 -> e mod 4294967296 = t mod 4294967296.
Proof. intros ->. apply Z.mod_add. lia. Qed.

Ltac decomp_to_int q :=
  match goal with
  | |- context [CInt.to_int ?x] =>
      lazymatch x with
      | context [CInt.to_int _] => fail
      | _ => let H := fresh "Hq" in
             destruct (to_int_decomp x) as [q H]; rewrite H; clear H
      end
  end.

(** The intermediate sums wrap as one: only the final result is
    reduced to 32 bits. *)
Lemma decode_counter_wraps_once p buf :
  decode_counter p buf =
  CInt.to_int (char_value p (b3 buf) * 16777216 + char_value p (b2 buf) * 65536
               + char_value p (b1 buf) * 256 + char_value p (b0 buf)).
Proof.
  unfold decode_counter, CInt.add, CInt.mul. apply to_int_congr.
  decomp_to_int q1. decomp_to_int q2. decomp_to_int q3.
  decomp_to_int q4. decomp_to_int q5.
  apply (mod_eq_of_diff _ _ (q1 + q2 + q3 + q4 + q5)). lia.
Qed.

Lemma char_value_top_bit p b :
  char_value p b = b - (if char_signed p then 256 * top_bit b else 0).
Proof.
  unfold char_value, top_bit. destruct (char_signed p); cbn [andb];
    [| lia]. destruct (128 <=? b); lia.
Qed.

(** X18: the counter the monitor prints is the little-endian value of
    the four bytes, less 256, 65536 and 16777216 for each of bytes 0, 1
    and 2 that has its top bit set when [char] is signed, the whole
    read as a 32-bit two's complement [int]. *)
Theorem decode_counter_value p buf :
  decode_counter p buf =
  CInt.to_int
    (le_u32 buf
     - (if char_signed p
        then 256 * top_bit (b0 buf) + 65536 * top_bit (b1 buf)
             + 16777216 * top_bit (b2 buf)
        else 0)).
Proof.
  rewrite decode_counter_wraps_once. unfold le_u32.
  rewrite !char_value_top_bit. apply to_int_congr.
  destruct (char_signed p).
  - apply (mod_eq_of_diff _ _ (- top_bit (b3 buf))). lia.
  - f_equal. lia.
Qed.

(** X19: where [char] is unsigned the printed counter is the
    little-endian value itself for every counter below 2^31, that is
    whenever the last byte is below 128. *)
Theorem decode_counter_unsigned_char_exact p buf :
  char_signed p = false ->
  byte_buffer buf ->
  b3 buf < 128 ->
  decode_counter p buf = le_u32 buf.
Proof.
  intros Hu (H0 & H1 & H2 & H3) Hlt. unfold is_byte in *.
  rewrite decode_counter_wraps_once. unfold char_value. rewrite Hu. cbn [andb].
  unfold le_u32. apply to_int_small. lia.
Qed.

Lemma decode_counter_unsigned_char_exact_witness :
  decode_counter arm {| b0 := 255; b1 := 128; b2 := 200; b3 := 127 |}
  = le_u32 {| b0 := 255; b1 := 128; b2 := 200; b3 := 127 |}.
Proof.
  apply (decode_counter_unsigned_char_exact arm
           {| b0 := 255; b1 := 128; b2 := 200; b3 := 127 |}).
  - reflexivity.
  - unfold byte_buffer, is_byte. simpl. lia.
  - simpl. lia.
Defined.

